(** * bio_pro: the publication renderer of js/main.js

    A shallow embedding of the client-side script of the CV site and the
    properties its specification states about it.

    - JavaScript strings are sequences of UTF-16 code units; a code unit is
      a number ([N]), a string a list of them.
    - The page is a record of the elements the script reaches by id or by
      selector; the script never creates or removes these anchors, and the
      host page is taken to provide them ([byId] never returns null).
    - Functions that touch the page are state transformers that may end by
      a thrown exception (the state reached so far is kept).
    - The parsed publications document follows the schema of the data
      file: three optional arrays of records and an optional timestamp.
    - Assigning to a property of an element stores the assigned string. *)

From Stdlib Require Import List NArith ZArith Bool Ascii String Lia.
From Stdlib Require Import DecimalString DecimalPos DecimalZ.
Import ListNotations.

Set Warnings "-register-all".

(* ================================================================== *)
(** ** Strings *)

Module Str.

Definition codeunit := N.
Definition jsstring := list codeunit.

(** A literal of the script, as code units. *)
Definition lit (s : string) : jsstring :=
  map N_of_ascii (list_ascii_of_string s).

Fixpoint eqb (a b : jsstring) : bool :=
  match a, b with
  | [], [] => true
  | x :: a', y :: b' => N.eqb x y && eqb a' b'
  | _, _ => false
  end.

(** [s.replaceAll(pat, rep)] for a search string [pat] of one code unit
    and a replacement without [$] patterns, which is how every call in
    main.js uses it. *)
Fixpoint replaceAll (pat : codeunit) (rep : jsstring) (s : jsstring) : jsstring :=
  match s with
  | [] => []
  | c :: s' => if N.eqb c pat then rep ++ replaceAll pat rep s'
               else c :: replaceAll pat rep s'
  end.

(** [s.replace(pat, rep)]: only the first occurrence is replaced. *)
Fixpoint replace (pat : codeunit) (rep : jsstring) (s : jsstring) : jsstring :=
  match s with
  | [] => []
  | c :: s' => if N.eqb c pat then rep ++ s'
               else c :: replace pat rep s'
  end.

(** [String(n)] for an integer. *)
Definition of_Z (z : Z) : jsstring :=
  lit (NilZero.string_of_int (Z.to_int z)).

End Str.
Import Str.

(** The reserved characters. *)
Definition AMP : codeunit := 38%N.    (* ampersand *)
Definition LT : codeunit := 60%N.     (* less-than sign *)
Definition GT : codeunit := 62%N.     (* greater-than sign *)
Definition QUOT : codeunit := 34%N.   (* double quote *)
Definition APOS : codeunit := 39%N.   (* apostrophe *)

(* ================================================================== *)
(** ** escapeHtml (main.js, lines 10-17) *)

(** The argument is a string in every call, so [String(str)] is [str]. *)
Definition escapeHtml (str : jsstring) : jsstring :=
  replaceAll APOS (lit "&#39;")
    (replaceAll QUOT (lit "&quot;")
      (replaceAll GT (lit "&gt;")
        (replaceAll LT (lit "&lt;")
          (replaceAll AMP (lit "&amp;") str)))).

(** What one code unit becomes. *)
Definition escapeUnit (c : codeunit) : jsstring :=
  if N.eqb c AMP then lit "&amp;"
  else if N.eqb c LT then lit "&lt;"
  else if N.eqb c GT then lit "&gt;"
  else if N.eqb c QUOT then lit "&quot;"
  else if N.eqb c APOS then lit "&#39;"
  else [c].

(** The five character references [escapeHtml] writes, without the
    leading ampersand. *)
Definition references : list (jsstring * codeunit) :=
  [ (lit "amp;", AMP); (lit "lt;", LT); (lit "gt;", GT);
    (lit "quot;", QUOT); (lit "#39;", APOS) ].

Fixpoint isPrefix (p s : jsstring) : bool :=
  match p, s with
  | [], _ => true
  | a :: p', b :: s' => N.eqb a b && isPrefix p' s'
  | _ :: _, [] => false
  end.

(** A markup-significant character in text or in a quoted attribute. *)
Definition isMarkupChar (c : codeunit) : bool :=
  N.eqb c LT || N.eqb c GT || N.eqb c QUOT || N.eqb c APOS.

(** Every ampersand of [s] starts one of the five references. *)
Fixpoint ampersandsEscaped (s : jsstring) : bool :=
  match s with
  | [] => true
  | c :: s' =>
      (if N.eqb c AMP
       then existsb (fun r => isPrefix (fst r) s') references
       else true) && ampersandsEscaped s'
  end.

Definition noMarkupChars (s : jsstring) : bool :=
  forallb (fun c => negb (isMarkupChar c)) s.

(* ================================================================== *)
(** ** The document tree *)

Definition attribute := (jsstring * jsstring)%type.

(** A node of the page: text, an element, or the nodes of a markup string
    that falls outside the part of HTML parsing modelled below. *)
Inductive node : Type :=
| Text (data : jsstring)
| Unparsed (markup : jsstring)
| Element (localName : jsstring) (attributes : list attribute)
          (childNodes : list node).

(** An element the script holds a reference to. *)
Record element : Type := mkElement {
  localName : jsstring;
  attributes : list attribute;
  childNodes : list node
}.

Definition asNode (e : element) : node :=
  Element e.(localName) e.(attributes) e.(childNodes).

(** [document.createElement(name)] *)
Definition createElement (name : jsstring) : element :=
  mkElement name [] [].

Fixpoint setAttr (name value : jsstring) (attrs : list attribute) : list attribute :=
  match attrs with
  | [] => [(name, value)]
  | (n, v) :: rest =>
      if Str.eqb n name then (n, value) :: rest
      else (n, v) :: setAttr name value rest
  end.

Fixpoint getAttr (name : jsstring) (attrs : list attribute) : option jsstring :=
  match attrs with
  | [] => None
  | (n, v) :: rest => if Str.eqb n name then Some v else getAttr name rest
  end.

(** Assignment to a reflected property ([className], [href], [target],
    [rel]) stores the string in the content attribute. *)
Definition setAttribute (name value : jsstring) (e : element) : element :=
  mkElement e.(localName) (setAttr name value e.(attributes)) e.(childNodes).

Definition set_className := setAttribute (lit "class").
Definition set_href := setAttribute (lit "href").
Definition set_target := setAttribute (lit "target").
Definition set_rel := setAttribute (lit "rel").

(** [e.textContent = s]: the children are replaced by one text node, or by
    nothing when [s] is empty. *)
Definition textNodes (s : jsstring) : list node :=
  match s with [] => [] | _ :: _ => [Text s] end.

Definition set_textContent (s : jsstring) (e : element) : element :=
  mkElement e.(localName) e.(attributes) (textNodes s).

(** [parent.appendChild(child)] for a child that is in no tree yet. *)
Definition appendChild (child : element) (parent : element) : element :=
  mkElement parent.(localName) parent.(attributes)
            (parent.(childNodes) ++ [asNode child]).

(** The [a] elements of a subtree, in document order. *)
Fixpoint anchors (n : node) : list node :=
  match n with
  | Text _ => []
  | Unparsed _ => []
  | Element name attrs children =>
      (if Str.eqb name (lit "a") then [n] else []) ++ flat_map anchors children
  end.

(** The [li] elements among a list of sibling nodes. *)
Definition isListItem (n : node) : bool :=
  match n with
  | Element name _ _ => Str.eqb name (lit "li")
  | _ => false
  end.

(* ================================================================== *)
(** ** Markup assigned to innerHTML

    The platform parses the assigned string as an HTML fragment.  The part
    of that algorithm the script exercises is modelled: character data with
    the five character references of [escapeHtml], and [li] and [div]
    elements with quoted attributes.  Any other markup is outside the model
    and is kept as one [Unparsed] node. *)

Module Html.

Definition NUL : codeunit := 0%N.
Definition TAB : codeunit := 9%N.
Definition LF : codeunit := 10%N.
Definition FF : codeunit := 12%N.
Definition CR : codeunit := 13%N.
Definition SPACE : codeunit := 32%N.
Definition SOLIDUS : codeunit := 47%N.
Definition SEMICOLON : codeunit := 59%N.
Definition EQUALS : codeunit := 61%N.
Definition HASH : codeunit := 35%N.
Definition HYPHEN : codeunit := 45%N.

(** Input stream preprocessing: CR LF and a lone CR become LF.
    [afterCR] tells that the previous code unit was a CR. *)
Fixpoint normalizeNewlines (afterCR : bool) (s : jsstring) : jsstring :=
  match s with
  | [] => []
  | c :: s' =>
      if N.eqb c CR then LF :: normalizeNewlines true s'
      else if N.eqb c LF then
        (if afterCR then normalizeNewlines false s'
         else LF :: normalizeNewlines false s')
      else c :: normalizeNewlines false s'
  end.

Definition isSpace (c : codeunit) : bool :=
  N.eqb c TAB || N.eqb c LF || N.eqb c FF || N.eqb c SPACE.
Definition isLower (c : codeunit) : bool := N.leb 97 c && N.leb c 122.
Definition isDigit (c : codeunit) : bool := N.leb 48 c && N.leb c 57.
Definition isNameChar (c : codeunit) : bool :=
  isLower c || isDigit c || N.eqb c HYPHEN.

Inductive token : Type :=
| Characters (data : jsstring)
| StartTag (name : jsstring) (attrs : list attribute)
| EndTag (name : jsstring).

(** Tokenizer states.  [run] is the character data read since the last
    tag. *)
Inductive tstate : Type :=
| Data (run : jsstring)
| CharacterReference (run : jsstring) (body : jsstring)
| TagOpen
| EndTagOpen
| TagName (name : jsstring)
| EndTagName (name : jsstring)
| BeforeAttributeName (name : jsstring) (attrs : list attribute)
| AttributeName (name : jsstring) (attrs : list attribute) (aname : jsstring)
| BeforeAttributeValue (name : jsstring) (attrs : list attribute)
                       (aname : jsstring)
| AttributeValue (quote : codeunit) (name : jsstring)
                 (attrs : list attribute) (aname avalue : jsstring)
| AfterAttributeValue (name : jsstring) (attrs : list attribute).

Definition flush (run : jsstring) : list token :=
  match run with [] => [] | _ :: _ => [Characters run] end.

Definition emit (t : list token) (rest : option (list token))
  : option (list token) :=
  option_map (app t) rest.

Definition lookupReference (body : jsstring) : option codeunit :=
  option_map snd (find (fun r => Str.eqb (fst r) body) references).

(** One code unit at a time, as the tokenizer of the HTML standard
    does; [None] when the input leaves the modelled part.  A NUL in
    character data is a token that tree construction ignores in body
    content, so it is dropped here. *)
Fixpoint tokenize (st : tstate) (s : jsstring) : option (list token) :=
  match s with
  | [] =>
      match st with
      | Data run => Some (flush run)
      | _ => None
      end
  | c :: s' =>
      match st with
      | Data run =>
          if N.eqb c LT then emit (flush run) (tokenize TagOpen s')
          else if N.eqb c AMP then tokenize (CharacterReference run []) s'
          else if N.eqb c NUL then tokenize (Data run) s'
          else tokenize (Data (run ++ [c])) s'
      | CharacterReference run body =>
          if N.eqb c SEMICOLON then
            match lookupReference (body ++ [c]) with
            | Some ch => tokenize (Data (run ++ [ch])) s'
            | None => None
            end
          else if isLower c || isDigit c || N.eqb c HASH
          then tokenize (CharacterReference run (body ++ [c])) s'
          else None
      | TagOpen =>
          if N.eqb c SOLIDUS then tokenize EndTagOpen s'
          else if isLower c then tokenize (TagName [c]) s'
          else None
      | EndTagOpen =>
          if isLower c then tokenize (EndTagName [c]) s' else None
      | TagName name =>
          if isSpace c then tokenize (BeforeAttributeName name []) s'
          else if N.eqb c GT
          then emit [StartTag name []] (tokenize (Data []) s')
          else if isLower c || isDigit c then tokenize (TagName (name ++ [c])) s'
          else None
      | EndTagName name =>
          if N.eqb c GT then emit [EndTag name] (tokenize (Data []) s')
          else if isLower c || isDigit c
          then tokenize (EndTagName (name ++ [c])) s'
          else None
      | BeforeAttributeName name attrs =>
          if isSpace c then tokenize (BeforeAttributeName name attrs) s'
          else if N.eqb c GT
          then emit [StartTag name attrs] (tokenize (Data []) s')
          else if isLower c then tokenize (AttributeName name attrs [c]) s'
          else None
      | AttributeName name attrs aname =>
          if N.eqb c EQUALS then
            match getAttr aname attrs with
            | None => tokenize (BeforeAttributeValue name attrs aname) s'
            | Some _ => None
            end
          else if isNameChar c
          then tokenize (AttributeName name attrs (aname ++ [c])) s'
          else None
      | BeforeAttributeValue name attrs aname =>
          if N.eqb c QUOT || N.eqb c APOS
          then tokenize (AttributeValue c name attrs aname []) s'
          else None
      | AttributeValue quote name attrs aname avalue =>
          if N.eqb c quote
          then tokenize (AfterAttributeValue name (attrs ++ [(aname, avalue)])) s'
          else if N.eqb c AMP || N.eqb c NUL then None
          else tokenize (AttributeValue quote name attrs aname (avalue ++ [c])) s'
      | AfterAttributeValue name attrs =>
          if isSpace c then tokenize (BeforeAttributeName name attrs) s'
          else if N.eqb c GT
          then emit [StartTag name attrs] (tokenize (Data []) s')
          else None
      end
  end.

(** An element whose end tag has not been seen yet. *)
Definition openElement := (jsstring * list attribute * list node)%type.

Definition isOpen (name : jsstring) (stack : list openElement) : bool :=
  existsb (fun f => Str.eqb (fst (fst f)) name) stack.

(** The start tags taken: [div] anywhere, [li] where no [li] is open
    (an open one would be closed implicitly, which is not modelled). *)
Definition startTagSupported (name : jsstring) (stack : list openElement)
  : bool :=
  Str.eqb name (lit "div")
  || (Str.eqb name (lit "li") && negb (isOpen (lit "li") stack)).

(** Tree construction: [stack] holds the open elements, innermost
    first; [root] the nodes already placed under the context element. *)
Fixpoint build (ts : list token) (stack : list openElement)
         (root : list node) : option (list node) :=
  match ts with
  | [] => match stack with [] => Some root | _ :: _ => None end
  | Characters data :: ts' =>
      match stack with
      | [] => build ts' [] (root ++ [Text data])
      | (n, a, ch) :: outer => build ts' ((n, a, ch ++ [Text data]) :: outer) root
      end
  | StartTag name attrs :: ts' =>
      if startTagSupported name stack
      then build ts' ((name, attrs, []) :: stack) root
      else None
  | EndTag name :: ts' =>
      match stack with
      | [] => None
      | (n, a, ch) :: outer =>
          if Str.eqb n name then
            match outer with
            | [] => build ts' [] (root ++ [Element n a ch])
            | (n', a', ch') :: outer' =>
                build ts' ((n', a', ch' ++ [Element n a ch]) :: outer') root
            end
          else None
      end
  end.

Definition parseFragment (markup : jsstring) : option (list node) :=
  match tokenize (Data []) (normalizeNewlines false markup) with
  | Some ts => build ts [] []
  | None => None
  end.

(** The character data a text-only fragment leaves in the tree: newlines
    normalized and NUL dropped. *)
Definition bodyText (s : jsstring) : jsstring :=
  filter (fun c => negb (N.eqb c NUL)) (normalizeNewlines false s).

End Html.

(** The children an element has after [e.innerHTML = markup]. *)
Definition innerHTMLNodes (markup : jsstring) : list node :=
  match Html.parseFragment markup with
  | Some ns => ns
  | None => [Unparsed markup]
  end.

Definition set_innerHTML (markup : jsstring) (e : element) : element :=
  mkElement e.(localName) e.(attributes) (innerHTMLNodes markup).

(* ================================================================== *)
(** ** The publications document (data/publications.json) *)

Record PublicationRecord : Type := mkRecord {
  label : jsstring;
  citation : jsstring;
  url : option jsstring          (* [None]: the record has no url *)
}.

Record PublicationDocument : Type := mkDocument {
  journals : option (list PublicationRecord);
  conferences : option (list PublicationRecord);
  book_chapters : option (list PublicationRecord);
  generated_utc : option jsstring
}.

(** The values an entry of [groups] can evaluate to. *)
Inductive value : Type :=
| Undefined
| Array (items : list PublicationRecord)
| Inherited (name : jsstring).    (* a member of Object.prototype *)

(** Reading an optional array field of the document. *)
Definition field (f : option (list PublicationRecord)) : value :=
  match f with
  | Some l => Array l
  | None => Undefined
  end.

(** Truthiness: [undefined] is falsy; arrays (the empty one too), functions
    and objects are truthy. *)
Definition truthy (v : value) : bool :=
  match v with
  | Undefined => false
  | Array _ => true
  | Inherited _ => true
  end.

(** [v || w] *)
Definition orElse (v w : value) : value := if truthy v then v else w.

(** Truthiness of an optional string: absent and empty are falsy. *)
Definition truthyString (s : option jsstring) : bool :=
  match s with
  | Some (_ :: _) => true
  | _ => false
  end.

(** The object literal [groups] of renderPublications. *)
Record Groups : Type := mkGroups {
  groups_journals : value;
  groups_conferences : value;
  groups_book_chapters : value
}.

(** The property names every object created by a literal inherits from
    Object.prototype. *)
Definition objectPrototypeNames : list jsstring :=
  map lit [ "constructor"; "__defineGetter__"; "__defineSetter__";
            "hasOwnProperty"; "__lookupGetter__"; "__lookupSetter__";
            "isPrototypeOf"; "propertyIsEnumerable"; "toString"; "valueOf";
            "__proto__"; "toLocaleString" ]%string.

(** A tab key is a string or [undefined] ([None]): [t.dataset.tab] of a
    control without the attribute. *)
Definition tabKey := option jsstring.

Definition toPropertyKey (k : tabKey) : jsstring :=
  match k with
  | Some s => s
  | None => lit "undefined"
  end.

(** [groups[key]]: the own properties first, then the prototype. *)
Definition getProperty (groups : Groups) (key : tabKey) : value :=
  let name := toPropertyKey key in
  if Str.eqb name (lit "journals") then groups.(groups_journals)
  else if Str.eqb name (lit "conferences") then groups.(groups_conferences)
  else if Str.eqb name (lit "book_chapters") then groups.(groups_book_chapters)
  else if existsb (Str.eqb name) objectPrototypeNames then Inherited name
  else Undefined.

(** [a === b] on tab keys. *)
Definition strictEq (a b : tabKey) : bool :=
  match a, b with
  | Some x, Some y => Str.eqb x y
  | None, None => true
  | _, _ => false
  end.

(* ================================================================== *)
(** ** The page *)

(** The listener initTabs attaches: [() => setActive(t.dataset.tab)]. *)
Inductive listener : Type := SelectTab.

(** A tab control: what the script reads and writes of it. *)
Record tab : Type := mkTab {
  dataset_tab : tabKey;
  classList : list jsstring;
  clickListeners : list listener
}.

(** The elements the host page provides. *)
Record page : Type := mkPage {
  year : element;            (* #year *)
  scholarLink : element;     (* #scholarLink *)
  orcidLink : element;       (* #orcidLink *)
  pubList : element;         (* #pubList *)
  pubUpdated : element;      (* #pubUpdated *)
  tabs : list tab            (* the elements matching .tab, in order *)
}.

Definition with_year (f : element -> element) (p : page) : page :=
  mkPage (f p.(year)) p.(scholarLink) p.(orcidLink) p.(pubList)
         p.(pubUpdated) p.(tabs).
Definition with_scholarLink (f : element -> element) (p : page) : page :=
  mkPage p.(year) (f p.(scholarLink)) p.(orcidLink) p.(pubList)
         p.(pubUpdated) p.(tabs).
Definition with_orcidLink (f : element -> element) (p : page) : page :=
  mkPage p.(year) p.(scholarLink) (f p.(orcidLink)) p.(pubList)
         p.(pubUpdated) p.(tabs).
Definition with_pubList (f : element -> element) (p : page) : page :=
  mkPage p.(year) p.(scholarLink) p.(orcidLink) (f p.(pubList))
         p.(pubUpdated) p.(tabs).
Definition with_pubUpdated (f : element -> element) (p : page) : page :=
  mkPage p.(year) p.(scholarLink) p.(orcidLink) p.(pubList)
         (f p.(pubUpdated)) p.(tabs).
Definition with_tabs (f : list tab -> list tab) (p : page) : page :=
  mkPage p.(year) p.(scholarLink) p.(orcidLink) p.(pubList)
         p.(pubUpdated) (f p.(tabs)).

(** [classList.contains(token)] and [classList.toggle(token, force)] *)
Definition contains (token : jsstring) (cl : list jsstring) : bool :=
  existsb (Str.eqb token) cl.

Definition toggle (token : jsstring) (force : bool) (cl : list jsstring)
  : list jsstring :=
  if force then (if contains token cl then cl else cl ++ [token])
  else filter (fun t => negb (Str.eqb token t)) cl.

Definition with_classList (f : list jsstring -> list jsstring) (t : tab) : tab :=
  mkTab t.(dataset_tab) (f t.(classList)) t.(clickListeners).

(** [t.addEventListener("click", l)] *)
Definition addEventListener (l : listener) (t : tab) : tab :=
  mkTab t.(dataset_tab) t.(classList) (t.(clickListeners) ++ [l]).

(** What the script runs on: the document object [pubData] refers to, the
    variable [active] of initTabs, and the page.  The document is part of
    the state so that a write to it would show. *)
Record world : Type := mkWorld {
  pubData : PublicationDocument;
  active : tabKey;
  dom : page
}.

Definition with_active (k : tabKey) (w : world) : world :=
  mkWorld w.(pubData) k w.(dom).
Definition with_dom (f : page -> page) (w : world) : world :=
  mkWorld w.(pubData) w.(active) (f w.(dom)).

(* ================================================================== *)
(** ** Computations: state and exceptions *)

Inductive exn : Type :=
| TypeError
| SyntaxError
| Error (message : jsstring).

Inductive completion (A : Type) : Type :=
| Normal (a : A)
| Throw (e : exn).
Arguments Normal {A} a.
Arguments Throw {A} e.

Definition M (S A : Type) : Type := S -> completion A * S.

Definition ret {S A : Type} (a : A) : M S A := fun s => (Normal a, s).

Definition bind {S A B : Type} (c : M S A) (k : A -> M S B) : M S B :=
  fun s =>
    match c s with
    | (Normal a, s') => k a s'
    | (Throw e, s') => (Throw e, s')
    end.

Definition throw {S A : Type} (e : exn) : M S A := fun s => (Throw e, s).
Definition get {S : Type} : M S S := fun s => (Normal s, s).
Definition modify {S : Type} (f : S -> S) : M S unit := fun s => (Normal tt, f s).

(** [try { body } catch (e) { handler }] *)
Definition tryCatch {S A : Type} (body : M S A) (handler : exn -> M S A)
  : M S A :=
  fun s =>
    match body s with
    | (Normal a, s') => (Normal a, s')
    | (Throw e, s') => handler e s'
    end.

Declare Scope js_scope.
Delimit Scope js_scope with js.
Notation "x <- c ;; k" := (bind c (fun x => k))
  (at level 61, c at next level, right associativity) : js_scope.
Notation "c ;; k" := (bind c (fun _ => k))
  (at level 61, right associativity) : js_scope.
Open Scope js_scope.

(** A loop over the elements of an array, in index order; a throwing
    iteration ends it. *)
Fixpoint iterate {S A : Type} (f : A -> M S unit) (l : list A) : M S unit :=
  match l with
  | [] => ret tt
  | x :: l' => f x ;; iterate f l'
  end.

(** [items.forEach(f)]: only an array has the method; on the other values
    the call of [undefined] throws a TypeError. *)
Definition forEach {S : Type} (items : value)
           (f : PublicationRecord -> M S unit) : M S unit :=
  match items with
  | Array l => iterate f l
  | Undefined => throw TypeError
  | Inherited _ => throw TypeError
  end.

(* ================================================================== *)
(** ** setProfileLinks (main.js, lines 19-39) *)

Record SiteConfig : Type := mkConfig {
  scholarProfileUrl : option jsstring;
  orcidId : option jsstring
}.

(** The constant of main.js, lines 1-4. *)
Definition siteConfig : SiteConfig :=
  mkConfig
    (Some (lit "https://scholar.google.com/citations?user=pbAP-VQAAAAJ&hl=en"))
    (Some (lit "0000-0002-8696-0920")).

(** The function reads the global [siteConfig], which the operator edits;
    it is taken here as a function of that configuration. *)
Definition setProfileLinks (config : SiteConfig) : M page unit :=
  (match config.(scholarProfileUrl) with
   | Some (c :: u) =>
       modify (with_scholarLink (set_href (c :: u))) ;;
       modify (with_scholarLink (set_textContent (lit "Open profile")))
   | _ =>
       modify (with_scholarLink (set_href (lit "#"))) ;;
       modify (with_scholarLink (set_textContent
         (lit "https://scholar.google.com/citations?user=pbAP-VQAAAAJ&hl=en")))
   end) ;;
  match config.(orcidId) with
  | Some (c :: i) =>
      let url := lit "https://orcid.org/" ++ (c :: i) in
      modify (with_orcidLink (set_href url)) ;;
      modify (with_orcidLink (set_textContent (c :: i)))
  | _ =>
      modify (with_orcidLink (set_href (lit "#"))) ;;
      modify (with_orcidLink (set_textContent (lit "Add your ORCID")))
  end.

(* ================================================================== *)
(** ** loadPublications (main.js, lines 41-48) *)

(** What [res.json()] settles to: a rejection on malformed JSON, or the
    parsed document.  A body that is JSON but not of the schema of the data
    file is outside the model. *)
Inductive jsonResult : Type :=
| JsonSyntaxError
| JsonValue (doc : PublicationDocument).

(** What [fetch(url)] settles to: a rejection (transport failure) or a
    response with its [ok] flag and body. *)
Inductive fetchResult : Type :=
| Rejected
| Response (ok : bool) (body : jsonResult).

(** The surroundings of one page load. *)
Record environment : Type := mkEnvironment {
  now : Z;                              (* Date.now() *)
  fullYear : Z;                         (* new Date().getFullYear() *)
  fetch : jsstring -> fetchResult
}.

Definition loadPublications (env : environment)
  : completion PublicationDocument :=
  let url := lit "data/publications.json?v=" ++ of_Z env.(now) in
  match env.(fetch) url with
  | Rejected => Throw TypeError
  | Response ok body =>
      if negb ok then Throw (Error (lit "Could not load publications.json"))
      else match body with
           | JsonSyntaxError => Throw SyntaxError
           | JsonValue doc => Normal doc
           end
  end.

(* ================================================================== *)
(** ** renderPublications (main.js, lines 50-102) *)

(** The list item the callback of [items.forEach] builds for one record
    (lines 63-92). *)
Definition pubItem (it : PublicationRecord) : element :=
  let li := createElement (lit "li") in
  let li := set_className (lit "pub-item") li in

  let tag := createElement (lit "div") in
  let tag := set_className (lit "pub-tag") tag in
  let tag := set_textContent it.(label) tag in

  let body := createElement (lit "div") in
  let cit := createElement (lit "div") in
  let cit := set_className (lit "pub-cit") cit in
  let cit := set_innerHTML (escapeHtml it.(citation)) cit in

  let body := appendChild cit body in

  let links := createElement (lit "div") in
  let links := set_className (lit "pub-links") links in

  let links :=
    match it.(url) with
    | Some (c :: u) =>
        let a := createElement (lit "a") in
        let a := set_href (c :: u) a in
        let a := set_target (lit "_blank") a in
        let a := set_rel (lit "noreferrer") a in
        let a := set_textContent (lit "DOI") a in
        appendChild a links
    | _ => links
    end in

  let body := appendChild links body in

  let li := appendChild tag li in
  let li := appendChild body li in
  li.

Definition CAPITAL_T : codeunit := 84%N.
Definition CAPITAL_Z : codeunit := 90%N.

Definition updatedText (pubData : PublicationDocument) : jsstring :=
  match pubData.(generated_utc) with
  | Some (c :: g) =>
      lit "Last updated "
      ++ replace CAPITAL_Z (lit " UTC") (replace CAPITAL_T (lit " ") (c :: g))
  | _ => []
  end.

(** The argument [pubData] of the source refers to the document object the
    page holds; that object is the field [pubData] of the state, which the
    function reads. *)
Definition renderPublications (key : tabKey) : M world unit :=
  modify (with_dom (with_pubList (set_innerHTML []))) ;;
  w <- get ;;
  let groups :=
    mkGroups (orElse (field w.(pubData).(journals)) (Array []))
             (orElse (field w.(pubData).(conferences)) (Array []))
             (orElse (field w.(pubData).(book_chapters)) (Array [])) in
  let items := orElse (getProperty groups key) (Array []) in
  forEach items (fun it =>
    modify (with_dom (with_pubList (appendChild (pubItem it))))) ;;
  modify (with_dom (with_pubUpdated (set_textContent (updatedText w.(pubData))))).

(* ================================================================== *)
(** ** initTabs (main.js, lines 104-119) *)

(** The closure [setActive] of initTabs; [tabs] is the collection of the
    controls, [pubData] the document of the state. *)
Definition setActive (key : tabKey) : M world unit :=
  modify (with_active key) ;;
  modify (with_dom (with_tabs (map (fun t =>
    with_classList (toggle (lit "active") (strictEq t.(dataset_tab) key)) t)))) ;;
  w <- get ;;
  renderPublications w.(active).

Definition initTabs : M world unit :=
  modify (with_active (Some (lit "journals"))) ;;
  modify (with_dom (with_tabs (map (addEventListener SelectTab)))) ;;
  w <- get ;;
  setActive w.(active).

(** A click on the [i]-th tab control runs its listeners in order; an
    exception thrown by a listener is reported by the browser and goes no
    further. *)
Definition runListener (t : tab) (l : listener) : M world unit :=
  match l with
  | SelectTab => setActive t.(dataset_tab)
  end.

Definition click (i : nat) (w : world) : world :=
  match nth_error w.(dom).(tabs) i with
  | Some t => fold_left (fun w' l => snd (runListener t l w')) t.(clickListeners) w
  | None => w
  end.

Definition clicks (indices : list nat) (w : world) : world :=
  fold_left (fun w' i => click i w') indices w.

(* ================================================================== *)
(** ** main (main.js, lines 121-132) *)

Definition NOTICE : jsstring :=
  lit "<li class='pub-item'><div class='pub-tag'>info</div><div class='pub-cit'>Publications could not be loaded. Check data/publications.json.</div></li>".

(** Runs a computation on the document and the page as one on the page. *)
Definition withDocument {A : Type} (doc : PublicationDocument)
           (c : M world A) : M page A :=
  fun p =>
    let (r, w) := c (mkWorld doc None p) in (r, w.(dom)).

Definition await {S A : Type} (r : completion A) : M S A :=
  fun s => (r, s).

Definition main (config : SiteConfig) (env : environment) : M page unit :=
  modify (with_year (set_textContent (of_Z env.(fullYear)))) ;;
  setProfileLinks config ;;
  tryCatch
    (pubData <- await (loadPublications env) ;;
     withDocument pubData initTabs)
    (fun e => modify (with_pubList (set_innerHTML NOTICE))).

(** The world a successful load leaves behind, on which clicks act. *)
Definition loaded (doc : PublicationDocument) (p : page) : world :=
  snd (initTabs (mkWorld doc None p)).

(* ================================================================== *)
(** ** The specification's view *)

Definition JOURNALS : tabKey := Some (lit "journals").
Definition CONFERENCES : tabKey := Some (lit "conferences").
Definition BOOK_CHAPTERS : tabKey := Some (lit "book_chapters").

Definition recognized (key : tabKey) : bool :=
  strictEq key JOURNALS || strictEq key CONFERENCES
  || strictEq key BOOK_CHAPTERS.

(** The group a key names, in the specification's words: the sequence of
    the document under a recognized key, an absent one being empty; no
    items under any other key. *)
Definition groupOf (doc : PublicationDocument) (key : tabKey)
  : list PublicationRecord :=
  let seq f := match f with Some l => l | None => [] end in
  if strictEq key JOURNALS then seq doc.(journals)
  else if strictEq key CONFERENCES then seq doc.(conferences)
  else if strictEq key BOOK_CHAPTERS then seq doc.(book_chapters)
  else [].

(** Whether the document has the group of a key at all. *)
Definition groupField (doc : PublicationDocument) (key : tabKey)
  : option (list PublicationRecord) :=
  if strictEq key JOURNALS then doc.(journals)
  else if strictEq key CONFERENCES then doc.(conferences)
  else if strictEq key BOOK_CHAPTERS then doc.(book_chapters)
  else None.

Definition isActive (t : tab) : bool := contains (lit "active") t.(classList).

Definition activeTabs (w : world) : list tab :=
  filter isActive w.(dom).(tabs).

Definition tabKeys (p : page) : list tabKey := map dataset_tab p.(tabs).

(** The list items shown. *)
Definition listItems (w : world) : list node :=
  filter isListItem w.(dom).(pubList).(childNodes).

(** A key that names a member of Object.prototype. *)
Definition inherited (key : tabKey) : bool :=
  existsb (Str.eqb (toPropertyKey key)) objectPrototypeNames.

(** The link of a record with url [u], as the specification describes it. *)
Definition doiLink (u : jsstring) : node :=
  Element (lit "a")
          [(lit "href", u); (lit "target", lit "_blank");
           (lit "rel", lit "noreferrer")]
          [Text (lit "DOI")].

(** The nodes of the records of a group. *)
Definition itemNodes (l : list PublicationRecord) : list node :=
  map (fun it => asNode (pubItem it)) l.

Definition setChildNodes (ns : list node) (e : element) : element :=
  mkElement e.(localName) e.(attributes) ns.

(** The world after a render of [key] that ran to its end, and after one
    that stopped at [items.forEach]. *)
Definition rendered (key : tabKey) (w : world) : world :=
  with_dom (fun p =>
    with_pubUpdated (setChildNodes (textNodes (updatedText w.(pubData))))
      (with_pubList (setChildNodes (itemNodes (groupOf w.(pubData) key))) p)) w.

Definition cleared (w : world) : world :=
  with_dom (with_pubList (setChildNodes [])) w.

(** The tree of the list item of a record, as the specification describes
    it: a tag with the label, the citation as text, and the links. *)
Definition itemTree (it : PublicationRecord) : node :=
  Element (lit "li") [(lit "class", lit "pub-item")]
    [ Element (lit "div") [(lit "class", lit "pub-tag")] (textNodes it.(label));
      Element (lit "div") []
        [ Element (lit "div") [(lit "class", lit "pub-cit")]
                  (textNodes (Html.bodyText it.(citation)));
          Element (lit "div") [(lit "class", lit "pub-links")]
                  (match it.(url) with
                   | Some (c :: u) => [doiLink (c :: u)]
                   | _ => []
                   end) ] ].

(** The reserved characters of the specification. *)
Definition isReserved (c : codeunit) : bool :=
  N.eqb c AMP || isMarkupChar c.

(** The world in which [setActive key] calls renderPublications: the key
    stored and the class lists updated. *)
Definition selected (key : tabKey) (w : world) : world :=
  with_dom (with_tabs (map (fun t =>
    with_classList (toggle (lit "active") (strictEq t.(dataset_tab) key)) t)))
    (with_active key w).

(** The key selected after clicks on the tab controls of the given indices,
    starting from the default selection: the key of the last control
    clicked (an index beyond the controls clicks nothing). *)
Definition selection (keys : list tabKey) (start : tabKey)
           (indices : list nat) : tabKey :=
  fold_left (fun k i => match nth_error keys i with
                        | Some k' => k'
                        | None => k
                        end) indices start.

(** The document and the tab controls as initTabs leaves them: every
    control has its key and a listener. *)
Definition Wired (doc : PublicationDocument) (keys : list tabKey)
           (w : world) : Prop :=
  w.(pubData) = doc
  /\ tabKeys w.(dom) = keys
  /\ Forall (fun t => t.(clickListeners) <> []) w.(dom).(tabs).

(** The state after a selection of [key]: the controls marked active are
    those of that key, and the list holds the items of its group. *)
Definition Selected (doc : PublicationDocument) (keys : list tabKey)
           (key : tabKey) (w : world) : Prop :=
  Wired doc keys w
  /\ w.(active) = key
  /\ map isActive w.(dom).(tabs) = map (fun k => strictEq k key) keys
  /\ w.(dom).(pubList).(childNodes) = itemNodes (groupOf doc key).

(** The ways the load of the document fails: the transport, a response
    that is not ok, or a body that is not JSON. *)
Definition failedLoad (r : fetchResult) : bool :=
  match r with
  | Rejected => true
  | Response false _ => true
  | Response true JsonSyntaxError => true
  | Response true (JsonValue _) => false
  end.

(** The informational list item. *)
Definition noticeItem : node :=
  Element (lit "li") [(lit "class", lit "pub-item")]
    [ Element (lit "div") [(lit "class", lit "pub-tag")] [Text (lit "info")];
      Element (lit "div") [(lit "class", lit "pub-cit")]
        [Text (lit "Publications could not be loaded. Check data/publications.json.")] ].

(** The [href] of a link of the page. *)
Definition hrefOf (e : element) : option jsstring :=
  getAttr (lit "href") e.(attributes).

(** C3, as the specification states it: a record without [url] has no link
    in its item, and a record with [url] has exactly the one DOI link to
    that url. *)
Definition linkWheneverUrlPresent : Prop :=
  forall it : PublicationRecord,
    match it.(url) with
    | None => anchors (asNode (pubItem it)) = []
    | Some u => anchors (asNode (pubItem it)) = [doiLink u]
    end.

(** The number of occurrences of a code unit in a string. *)
Definition occurrences (c : codeunit) (s : jsstring) : nat :=
  count_occ N.eq_dec s c.

(** Whether a string holds one of the five characters escapeHtml rewrites. *)
Definition hasReserved (s : jsstring) : bool := existsb isReserved s.

(** The URL loadPublications passes to [fetch] (line 42). *)
Definition requestUrl (env : environment) : jsstring :=
  lit "data/publications.json?v=" ++ of_Z env.(now).

(** The class tokens of a control other than [active]. *)
Definition otherTokens (cl : list jsstring) : list jsstring :=
  filter (fun t => negb (Str.eqb (lit "active") t)) cl.

(** What selecting a tab is not meant to touch of a control: its key, its
    class tokens other than [active], and its listeners. *)
Definition fixedPart (t : tab) : tabKey * list jsstring * list listener :=
  (t.(dataset_tab), otherTokens t.(classList), t.(clickListeners)).

(** The nodes shown as the citation of a list item: the children of its
    element of class [pub-cit]. *)
Definition hasClass (cls : jsstring) (attrs : list attribute) : bool :=
  match getAttr (lit "class") attrs with
  | Some c => Str.eqb c cls
  | None => false
  end.

Fixpoint citationNodes (n : node) : list node :=
  match n with
  | Text _ => []
  | Unparsed _ => []
  | Element _ attrs children =>
      if hasClass (lit "pub-cit") attrs then children
      else flat_map citationNodes children
  end.

(* ================================================================== *)
(** ** Sample data *)

Module Sample.

Definition plain : element := createElement (lit "div").

(** A host page with the three tab controls, the first one marked
    active in the markup. *)
Definition hostPage : page :=
  mkPage (createElement (lit "span")) (createElement (lit "a"))
         (createElement (lit "a")) (createElement (lit "ul")) plain
         [ mkTab JOURNALS [lit "tab"; lit "active"] [];
           mkTab CONFERENCES [lit "tab"] [];
           mkTab BOOK_CHAPTERS [lit "tab"] [] ].

Definition j2 : PublicationRecord :=
  mkRecord (lit "j2") (lit "Ao & Bo, <i>Soil</i> 3 (2024)")
           (Some (lit "https://doi.org/10.1000/x2")).
Definition j1 : PublicationRecord :=
  mkRecord (lit "j1") (lit "Ao, Notes (2021)") None.
Definition c1 : PublicationRecord :=
  mkRecord (lit "c1") (lit "Ao, Proc. 'X' (2022)") (Some []).

(** A document without the [book_chapters] key. *)
Definition document : PublicationDocument :=
  mkDocument (Some [j2; j1]) (Some [c1]) None
             (Some (lit "2024-05-06T07:08:09Z")).

Definition startWorld : world := mkWorld document None hostPage.

(** An environment whose server answers 404. *)
Definition notFound : environment :=
  mkEnvironment 1714979289000 2024 (fun _ => Response false JsonSyntaxError).


(** A configuration with the scholar url set and no ORCID identifier. *)
Definition scholarOnly : SiteConfig :=
  mkConfig (Some (lit "https://scholar.example/citations?user=ao")) None.

(** An environment whose server answers with the sample document. *)
Definition served : environment :=
  mkEnvironment 1714979289000 2024
                (fun _ => Response true (JsonValue document)).

End Sample.

(* ================================================================== *)
(** * Properties *)

(** ** Strings *)

Lemma eqb_eq (a b : jsstring) : Str.eqb a b = true <-> a = b.
Proof.
  revert b; induction a as [|x a IH]; intros [|y b]; simpl;
    try (split; congruence).
  rewrite andb_true_iff, N.eqb_eq, IH. split.
  - intros [-> ->]; reflexivity.
  - intros [= -> ->]; split; reflexivity.
Qed.

Lemma eqb_neq (a b : jsstring) : Str.eqb a b = false <-> a <> b.
Proof.
  rewrite <- eqb_eq. destruct (Str.eqb a b); split; congruence.
Qed.

Lemma eqb_refl (a : jsstring) : Str.eqb a a = true.
Proof. now apply eqb_eq. Qed.

Lemma replaceAll_app pat rep (a b : jsstring) :
  replaceAll pat rep (a ++ b) = replaceAll pat rep a ++ replaceAll pat rep b.
Proof.
  induction a as [|c a IH]; simpl; [reflexivity|].
  destruct (N.eqb c pat); rewrite IH; [now rewrite app_assoc | reflexivity].
Qed.

Lemma escapeHtml_app (a b : jsstring) :
  escapeHtml (a ++ b) = escapeHtml a ++ escapeHtml b.
Proof. unfold escapeHtml. now rewrite !replaceAll_app. Qed.

(** Splits on which reserved character [c] is, if any. *)
Ltac reserved c :=
  destruct (N.eqb_spec c AMP) as [->|?];
  [|destruct (N.eqb_spec c LT) as [->|?];
    [|destruct (N.eqb_spec c GT) as [->|?];
      [|destruct (N.eqb_spec c QUOT) as [->|?];
        [|destruct (N.eqb_spec c APOS) as [->|?]]]]].

Ltac neqb :=
  repeat match goal with
         | H : ?c <> ?k |- context [N.eqb ?c ?k] =>
             rewrite (proj2 (N.eqb_neq c k) H)
         end.

Ltac neqb_in H :=
  repeat match type of H with
         | context [N.eqb ?c ?k] =>
             match goal with
             | Hne : c <> k |- _ => rewrite (proj2 (N.eqb_neq c k) Hne) in H
             end
         end.

Lemma escapeHtml_unit (c : codeunit) : escapeHtml [c] = escapeUnit c.
Proof.
  unfold escapeUnit.
  reserved c; try reflexivity.
  unfold escapeHtml; simpl; neqb; simpl; neqb; simpl; neqb; simpl; neqb;
    simpl; neqb; reflexivity.
Qed.

(** The five replacements in a row act on each code unit by itself. *)
Lemma escapeHtml_cons (c : codeunit) (s : jsstring) :
  escapeHtml (c :: s) = escapeUnit c ++ escapeHtml s.
Proof.
  change (c :: s) with ([c] ++ s).
  now rewrite escapeHtml_app, escapeHtml_unit.
Qed.

Lemma noMarkupChars_escapeHtml (s : jsstring) :
  noMarkupChars (escapeHtml s) = true.
Proof.
  induction s as [|c s IH]; [reflexivity|].
  rewrite escapeHtml_cons. unfold noMarkupChars in *.
  rewrite forallb_app, IH, andb_true_r.
  unfold escapeUnit. reserved c; try reflexivity.
  neqb. simpl. unfold isMarkupChar. neqb. reflexivity.
Qed.

Lemma ampersandsEscaped_escapeHtml (s : jsstring) :
  ampersandsEscaped (escapeHtml s) = true.
Proof.
  induction s as [|c s IH]; [reflexivity|].
  rewrite escapeHtml_cons. unfold escapeUnit.
  reserved c; try (simpl; exact IH).
  neqb. simpl. neqb. exact IH.
Qed.

(** ** The markup of an escaped string *)

Section EscapedMarkup.
Import Html.

Lemma normalizeNewlines_escapeHtml (s : jsstring) : forall afterCR,
  normalizeNewlines afterCR (escapeHtml s)
  = escapeHtml (normalizeNewlines afterCR s).
Proof.
  induction s as [|c s IH]; intros b; [reflexivity|].
  rewrite escapeHtml_cons.
  destruct (N.eqb_spec c CR) as [->|HCR].
  { simpl. rewrite IH, escapeHtml_cons. reflexivity. }
  destruct (N.eqb_spec c LF) as [->|HLF].
  { destruct b; simpl; rewrite IH; [|rewrite escapeHtml_cons]; reflexivity. }
  unfold escapeUnit.
  reserved c; try (simpl; rewrite IH, escapeHtml_cons; reflexivity).
  neqb. simpl. neqb. rewrite IH, escapeHtml_cons.
  unfold escapeUnit. neqb. reflexivity.
Qed.

Lemma tokenize_escapeUnit (run : jsstring) (c : codeunit) (rest : jsstring) :
  tokenize (Data run) (escapeUnit c ++ rest)
  = tokenize (Data (run ++ (if N.eqb c NUL then [] else [c]))) rest.
Proof.
  destruct (N.eqb_spec c NUL) as [->|HNUL].
  { simpl. now rewrite app_nil_r. }
  unfold escapeUnit.
  reserved c; try reflexivity.
  neqb. simpl. neqb. reflexivity.
Qed.

Lemma tokenize_escapeHtml (s : jsstring) : forall run,
  tokenize (Data run) (escapeHtml s)
  = Some (flush (run ++ filter (fun c => negb (N.eqb c NUL)) s)).
Proof.
  induction s as [|c s IH]; intros run.
  - simpl. now rewrite app_nil_r.
  - rewrite escapeHtml_cons, tokenize_escapeUnit, IH. simpl.
    destruct (N.eqb c NUL); simpl.
    + now rewrite app_nil_r.
    + now rewrite <- app_assoc.
Qed.

Lemma build_flush (t : jsstring) : build (flush t) [] [] = Some (textNodes t).
Proof. destruct t; reflexivity. Qed.

(** An escaped string parses to the text it escapes, and to nothing
    else: no element, no unparsed rest. *)
Lemma innerHTMLNodes_escapeHtml (s : jsstring) :
  innerHTMLNodes (escapeHtml s) = textNodes (bodyText s).
Proof.
  unfold innerHTMLNodes, parseFragment.
  rewrite normalizeNewlines_escapeHtml, tokenize_escapeHtml. simpl.
  now rewrite build_flush.
Qed.

End EscapedMarkup.

Lemma anchors_textNodes (s : jsstring) : flat_map anchors (textNodes s) = [].
Proof. destruct s; reflexivity. Qed.

(** ** renderPublications *)

Lemma recognized_not_inherited (key : tabKey) :
  recognized key = true -> inherited key = false.
Proof.
  unfold recognized, JOURNALS, CONFERENCES, BOOK_CHAPTERS.
  destruct key as [s|]; simpl; [|discriminate].
  rewrite !orb_true_iff, !eqb_eq. intros [[->| ->]| ->]; reflexivity.
Qed.

(** What [groups[tabKey] || []] evaluates to. *)
Lemma items_of_key (doc : PublicationDocument) (key : tabKey) :
  orElse (getProperty
        (mkGroups (orElse (field doc.(journals)) (Array []))
                  (orElse (field doc.(conferences)) (Array []))
                  (orElse (field doc.(book_chapters)) (Array []))) key)
     (Array [])
  = if inherited key then Inherited (toPropertyKey key)
    else Array (groupOf doc key).
Proof.
  unfold getProperty, groupOf, inherited, JOURNALS, CONFERENCES, BOOK_CHAPTERS.
  destruct key as [s|]; [|reflexivity]. simpl toPropertyKey. simpl strictEq.
  destruct (Str.eqb s (lit "journals")) eqn:Ej.
  { apply eqb_eq in Ej; subst s. simpl. now destruct (journals doc). }
  destruct (Str.eqb s (lit "conferences")) eqn:Ec.
  { apply eqb_eq in Ec; subst s. simpl. now destruct (conferences doc). }
  destruct (Str.eqb s (lit "book_chapters")) eqn:Eb.
  { apply eqb_eq in Eb; subst s. simpl. now destruct (book_chapters doc). }
  now destruct (existsb (Str.eqb s) objectPrototypeNames).
Qed.

Lemma iterate_appendItems (l : list PublicationRecord) : forall w,
  iterate (fun it => modify (with_dom (with_pubList (appendChild (pubItem it)))))
          l w
  = (Normal tt,
     with_dom (with_pubList (fun e =>
       setChildNodes (e.(childNodes) ++ itemNodes l) e)) w).
Proof.
  induction l as [|it l IH]; intros [doc act [y sl ol [n a ch] u ts]].
  - simpl. unfold ret, with_dom, with_pubList, setChildNodes. simpl.
    now rewrite app_nil_r.
  - simpl. unfold bind, modify at 1. rewrite IH.
    unfold with_dom, with_pubList, setChildNodes, appendChild. simpl.
    now rewrite <- app_assoc.
Qed.

(** A render under a key that is no member of Object.prototype runs to
    its end and shows the group of the key. *)
Lemma renderPublications_ok (key : tabKey) (w : world) :
  inherited key = false ->
  renderPublications key w = (Normal tt, rendered key w).
Proof.
  intros Hk. destruct w as [doc act [y sl ol [n a ch] u ts]].
  unfold renderPublications, bind, modify at 1, get. simpl.
  rewrite items_of_key, Hk. simpl. rewrite iterate_appendItems.
  reflexivity.
Qed.

(** Under a member of Object.prototype the render stops with a TypeError
    once the list has been emptied. *)
Lemma renderPublications_throws (key : tabKey) (w : world) :
  inherited key = true ->
  renderPublications key w = (Throw TypeError, cleared w).
Proof.
  intros Hk. destruct w as [doc act [y sl ol [n a ch] u ts]].
  unfold renderPublications, bind, modify at 1, get. simpl.
  rewrite items_of_key, Hk. reflexivity.
Qed.

(** ** The list item of a record *)

Lemma pubItem_tree (it : PublicationRecord) : asNode (pubItem it) = itemTree it.
Proof.
  unfold pubItem, itemTree, asNode, set_innerHTML. simpl.
  rewrite innerHTMLNodes_escapeHtml.
  destruct (url it) as [[|c u]|]; reflexivity.
Qed.

Lemma anchors_itemTree (it : PublicationRecord) :
  anchors (itemTree it)
  = match it.(url) with
    | Some (c :: u) => [doiLink (c :: u)]
    | _ => []
    end.
Proof.
  unfold itemTree. simpl. rewrite !anchors_textNodes. simpl.
  destruct (url it) as [[|c u]|]; reflexivity.
Qed.

Lemma isListItem_pubItem (it : PublicationRecord) :
  isListItem (asNode (pubItem it)) = true.
Proof. reflexivity. Qed.

Lemma filter_isListItem_itemNodes (l : list PublicationRecord) :
  filter isListItem (itemNodes l) = itemNodes l.
Proof.
  induction l as [|it l IH]; [reflexivity|].
  unfold itemNodes in *. cbn [map filter].
  rewrite isListItem_pubItem. now rewrite IH.
Qed.

Lemma reserved_bodyText (s : jsstring) :
  filter isReserved (Html.bodyText s) = filter isReserved s.
Proof.
  unfold Html.bodyText. generalize false.
  induction s as [|c s IH]; intros b; [reflexivity|]. simpl.
  destruct (N.eqb_spec c Html.CR) as [->|HCR]; [simpl; apply IH|].
  destruct (N.eqb_spec c Html.LF) as [->|HLF].
  { destruct b; simpl; apply IH. }
  destruct (N.eqb_spec c Html.NUL) as [->|HNUL]; [simpl; apply IH|].
  simpl. rewrite (proj2 (N.eqb_neq c Html.NUL) HNUL). simpl.
  now rewrite IH.
Qed.

Lemma groupOf_field (doc : PublicationDocument) (key : tabKey) :
  groupOf doc key = match groupField doc key with Some l => l | None => [] end.
Proof.
  unfold groupOf, groupField.
  destruct (strictEq key JOURNALS); [reflexivity|].
  destruct (strictEq key CONFERENCES); [reflexivity|].
  destruct (strictEq key BOOK_CHAPTERS); reflexivity.
Qed.

Lemma groupOf_unrecognized (doc : PublicationDocument) (key : tabKey) :
  recognized key = false -> groupOf doc key = [].
Proof.
  unfold recognized, groupOf. rewrite !orb_false_iff.
  intros [[-> ->] ->]. reflexivity.
Qed.

(** A key that is neither recognized nor a member of Object.prototype
    renders no item and throws nothing. *)
Lemma renderPublications_unknown_key (key : tabKey) (w : world) :
  recognized key = false -> inherited key = false ->
  fst (renderPublications key w) = Normal tt
  /\ childNodes (pubList (dom (snd (renderPublications key w)))) = [].
Proof.
  intros Hr Hi. rewrite renderPublications_ok by assumption.
  unfold rendered. destruct w as [doc act [y sl ol pl u ts]]. simpl.
  now rewrite groupOf_unrecognized.
Qed.

(** ** Runs on the sample data *)

Example escapeHtml_sample :
  escapeHtml (lit "Ao & Bo, <i>Soil</i> 'X'")
  = lit "Ao &amp; Bo, &lt;i&gt;Soil&lt;/i&gt; &#39;X&#39;".
Proof. reflexivity. Qed.

Example escapeHtml_twice_sample :
  escapeHtml (escapeHtml (lit "a<b")) = lit "a&amp;lt;b".
Proof. reflexivity. Qed.

Example main_served_sample :
  fst (main siteConfig Sample.served Sample.hostPage) = Normal tt
  /\ childNodes (pubList (snd (main siteConfig Sample.served Sample.hostPage)))
     = [itemTree Sample.j2; itemTree Sample.j1]
  /\ childNodes (pubUpdated (snd (main siteConfig Sample.served Sample.hostPage)))
     = [Text (lit "Last updated 2024-05-06 07:08:09 UTC")]
  /\ childNodes (year (snd (main siteConfig Sample.served Sample.hostPage)))
     = [Text (lit "2024")]
  /\ map classList (tabs (snd (main siteConfig Sample.served Sample.hostPage)))
     = [[lit "tab"; lit "active"]; [lit "tab"]; [lit "tab"]].
Proof. vm_compute. repeat split. Qed.

Example click_conferences_sample :
  map classList
      (tabs (dom (click 1 (loaded Sample.document Sample.hostPage))))
  = [[lit "tab"]; [lit "tab"; lit "active"]; [lit "tab"]]
  /\ childNodes (pubList (dom (click 1 (loaded Sample.document Sample.hostPage))))
     = [itemTree Sample.c1].
Proof. vm_compute. repeat split. Qed.

Example unparsed_sample :
  innerHTMLNodes (lit "<p>x</p>") = [Unparsed (lit "<p>x</p>")].
Proof. reflexivity. Qed.

(* ================================================================== *)
(** * The claims *)

Lemma citationNodes_itemTree (it : PublicationRecord) :
  citationNodes (itemTree it) = textNodes (Html.bodyText it.(citation)).
Proof.
  assert (T : forall s, flat_map citationNodes (textNodes s) = []).
  { intros [|c s]; reflexivity. }
  unfold itemTree.
  repeat (cbn [citationNodes flat_map app];
          match goal with
          | |- context [hasClass ?c ?a] =>
              let v := eval vm_compute in (hasClass c a) in
              change (hasClass c a) with v; cbv iota
          end).
  rewrite T. cbn [app].
  destruct (url it) as [[|c u]|]; cbn; rewrite ?app_nil_r; reflexivity.
Qed.

(** C1. For every string, one pass of [escapeHtml] gives markup with none
    of the characters less-than, greater-than, double quote and apostrophe
    in it, and in which every ampersand starts one of the five references
    the function writes.  Assigned to [innerHTML] that markup becomes text
    and only text, and its reserved characters are those of the string.
    So it is in rendering: the list item built for a record with that
    citation (line 73) is the tree [itemTree], whose citation element
    holds the citation as one text node and no element; and after a render
    that does not throw, the citation element of every list item holds
    the text of the citation of its record, record by record. *)
Theorem escapeHtml_injection_safe (str : jsstring) :
  noMarkupChars (escapeHtml str) = true
  /\ ampersandsEscaped (escapeHtml str) = true
  /\ innerHTMLNodes (escapeHtml str) = textNodes (Html.bodyText str)
  /\ filter isReserved (Html.bodyText str) = filter isReserved str
  /\ (forall lbl u,
        asNode (pubItem (mkRecord lbl str u)) = itemTree (mkRecord lbl str u)
        /\ citationNodes (asNode (pubItem (mkRecord lbl str u)))
           = textNodes (Html.bodyText str)
        /\ flat_map anchors (citationNodes (asNode (pubItem (mkRecord lbl str u))))
           = [])
  /\ (forall key w,
        inherited key = false ->
        map citationNodes
            (childNodes (pubList (dom (snd (renderPublications key w)))))
        = map (fun it => textNodes (Html.bodyText it.(citation)))
              (groupOf (pubData w) key)).
Proof.
  repeat split.
  - apply noMarkupChars_escapeHtml.
  - apply ampersandsEscaped_escapeHtml.
  - apply innerHTMLNodes_escapeHtml.
  - apply reserved_bodyText.
  - apply pubItem_tree.
  - rewrite pubItem_tree. apply (citationNodes_itemTree (mkRecord lbl str u)).
  - rewrite pubItem_tree, (citationNodes_itemTree (mkRecord lbl str u)).
    apply anchors_textNodes.
  - intros key w Hk. rewrite renderPublications_ok by assumption.
    destruct w as [doc act [y sl ol pl u ts]].
    unfold rendered, itemNodes.
    cbn [snd dom with_dom with_pubList with_pubUpdated pubList childNodes
         setChildNodes pubData].
    rewrite map_map. apply map_ext. intros it.
    rewrite pubItem_tree. apply citationNodes_itemTree.
Qed.

Lemma escapeHtml_injection_safe_witness :
  citationNodes (asNode (pubItem Sample.j2))
  = [Text (lit "Ao & Bo, <i>Soil</i> 3 (2024)")]
  /\ map citationNodes
         (childNodes (pubList (dom (snd (renderPublications JOURNALS
                                           Sample.startWorld)))))
     = [[Text (lit "Ao & Bo, <i>Soil</i> 3 (2024)")];
        [Text (lit "Ao, Notes (2021)")]].
Proof.
  pose proof (escapeHtml_injection_safe (lit "Ao & Bo, <i>Soil</i> 3 (2024)"))
    as (_ & _ & _ & _ & Hitem & Hrender).
  split.
  - exact (proj1 (proj2 (Hitem (lit "j2")
                                (Some (lit "https://doi.org/10.1000/x2"))))).
  - exact (Hrender JOURNALS Sample.startWorld eq_refl).
Defined.

(** C2. For every document and every recognized group key whose group
    holds the records [l], the render ends normally and the list holds
    exactly the items of [l], one per record and in the order of [l]:
    [length l] list items, the [i]-th being the item of the [i]-th
    record. *)
Theorem renderPublications_one_item_per_record
        (doc : PublicationDocument) (act : tabKey) (p : page)
        (key : tabKey) (l : list PublicationRecord) :
  recognized key = true ->
  groupField doc key = Some l ->
  fst (renderPublications key (mkWorld doc act p)) = Normal tt
  /\ listItems (snd (renderPublications key (mkWorld doc act p)))
     = map itemTree l
  /\ childNodes (pubList (dom (snd (renderPublications key (mkWorld doc act p)))))
     = map itemTree l
  /\ List.length (listItems (snd (renderPublications key (mkWorld doc act p))))
     = List.length l
  /\ forall i,
       nth_error (listItems (snd (renderPublications key (mkWorld doc act p)))) i
       = option_map itemTree (nth_error l i).
Proof.
  intros Hkey Hl.
  rewrite renderPublications_ok by (now apply recognized_not_inherited).
  unfold listItems, rendered. cbn [fst snd dom with_dom pubData].
  rewrite groupOf_field, Hl.
  cbn [pubList with_pubUpdated with_pubList childNodes setChildNodes].
  rewrite filter_isListItem_itemNodes.
  assert (E : itemNodes l = map itemTree l).
  { unfold itemNodes. apply map_ext. intros it. apply pubItem_tree. }
  rewrite E. repeat split.
  - apply length_map.
  - intros i. apply nth_error_map.
Qed.

Lemma renderPublications_one_item_per_record_witness :
  recognized JOURNALS = true
  /\ groupField Sample.document JOURNALS = Some [Sample.j2; Sample.j1]
  /\ List.length (listItems (snd (renderPublications JOURNALS Sample.startWorld)))
     = 2%nat.
Proof.
  split; [reflexivity|]. split; [reflexivity|].
  exact (proj1 (proj2 (proj2 (proj2
    (@renderPublications_one_item_per_record
       Sample.document None Sample.hostPage JOURNALS
       [Sample.j2; Sample.j1] eq_refl eq_refl))))).
Defined.

(** C3, counterexample: the record [c1] of the sample has a [url], the
    empty string, and its item has no link; so the statement as written,
    [linkWheneverUrlPresent], fails. *)
Lemma pubItem_empty_url_counterexample :
  url Sample.c1 = Some []
  /\ anchors (asNode (pubItem Sample.c1)) = []
  /\ ~ linkWheneverUrlPresent.
Proof.
  split; [reflexivity|]. split; [reflexivity|].
  intros H. specialize (H Sample.c1). discriminate H.
Qed.

(** C3, amended. A record without [url] has no [a] element anywhere in its
    list item; a record whose [url] is a non-empty string has exactly one,
    with the text DOI and that url as its [href]. *)
Theorem pubItem_link (it : PublicationRecord) :
  (it.(url) = None -> anchors (asNode (pubItem it)) = [])
  /\ (forall u, it.(url) = Some u -> u <> [] ->
        anchors (asNode (pubItem it)) = [doiLink u]).
Proof.
  rewrite pubItem_tree, anchors_itemTree. split.
  - intros ->. reflexivity.
  - intros u -> Hu. destruct u as [|c u]; [contradiction|]. reflexivity.
Qed.

Lemma pubItem_link_witness :
  anchors (asNode (pubItem Sample.j1)) = []
  /\ anchors (asNode (pubItem Sample.j2))
     = [doiLink (lit "https://doi.org/10.1000/x2")].
Proof.
  split.
  - apply (proj1 (pubItem_link Sample.j1)). reflexivity.
  - apply (proj2 (pubItem_link Sample.j2)); [reflexivity | discriminate].
Defined.

(** C10. A record whose [url] is the empty string has no link in its list
    item; an item has a link exactly when the [url] of its record is
    truthy, that is present and not empty. *)
Theorem pubItem_empty_url_no_link (it : PublicationRecord) :
  (it.(url) = Some [] -> anchors (asNode (pubItem it)) = [])
  /\ (anchors (asNode (pubItem it)) <> [] <-> truthyString it.(url) = true).
Proof.
  rewrite pubItem_tree, anchors_itemTree. split.
  - intros ->. reflexivity.
  - destruct (url it) as [[|c u]|]; simpl; split; congruence.
Qed.

Lemma pubItem_empty_url_no_link_witness :
  url Sample.c1 = Some [] /\ anchors (asNode (pubItem Sample.c1)) = [].
Proof.
  split; [reflexivity|].
  apply (proj1 (pubItem_empty_url_no_link Sample.c1)). reflexivity.
Defined.

(** C4. With the key [constructor], which is none of the three recognized
    keys, the render does not end normally: [groups[tabKey]] finds the
    member inherited from Object.prototype, the fallback to the empty
    array is not taken, and [items.forEach] throws a TypeError.  The list
    has been emptied by then; the freshness line is not reached. *)
Theorem renderPublications_constructor_throws (w : world) :
  recognized (Some (lit "constructor")) = false
  /\ renderPublications (Some (lit "constructor")) w
     = (Throw TypeError, cleared w).
Proof.
  split; [reflexivity|].
  now apply renderPublications_throws.
Qed.

(** C5. Whatever the configuration, setProfileLinks ends normally, and for
    each of the two links: when its identifier is absent (or empty) the
    [href] is the placeholder [#] and the text a fixed prompt; when it is
    set, the scholar link points at the configured url with the text "Open
    profile", and the ORCID link at the orcid.org page of the identifier
    with the identifier as text.  So with [orcidId] unset and
    [scholarProfileUrl] set, the scholar link is live and the ORCID link
    shows the prompt on the placeholder target. *)
Theorem setProfileLinks_links (config : SiteConfig) (p : page) :
  fst (setProfileLinks config p) = Normal tt
  /\ (truthyString config.(scholarProfileUrl) = false ->
        hrefOf (scholarLink (snd (setProfileLinks config p))) = Some (lit "#")
        /\ childNodes (scholarLink (snd (setProfileLinks config p)))
           = [Text (lit "https://scholar.google.com/citations?user=pbAP-VQAAAAJ&hl=en")])
  /\ (truthyString config.(orcidId) = false ->
        hrefOf (orcidLink (snd (setProfileLinks config p))) = Some (lit "#")
        /\ childNodes (orcidLink (snd (setProfileLinks config p)))
           = [Text (lit "Add your ORCID")])
  /\ (forall u, config.(scholarProfileUrl) = Some u -> u <> [] ->
        hrefOf (scholarLink (snd (setProfileLinks config p))) = Some u
        /\ childNodes (scholarLink (snd (setProfileLinks config p)))
           = [Text (lit "Open profile")])
  /\ (forall i, config.(orcidId) = Some i -> i <> [] ->
        hrefOf (orcidLink (snd (setProfileLinks config p)))
        = Some (lit "https://orcid.org/" ++ i)
        /\ childNodes (orcidLink (snd (setProfileLinks config p))) = [Text i]).
Proof.
  destruct config as [sch orc], p as [y sl ol pl u ts].
  assert (G : forall v attrs, getAttr (lit "href") (setAttr (lit "href") v attrs)
                              = Some v).
  { intros v attrs. induction attrs as [|[n x] attrs IH]; [reflexivity|].
    simpl setAttr. destruct (Str.eqb n (lit "href")) eqn:E.
    - simpl getAttr. now rewrite E.
    - simpl getAttr. now rewrite E. }
  unfold hrefOf.
  destruct sch as [[|c1 s1]|]; destruct orc as [[|c2 s2]|];
    cbn -[lit getAttr setAttr]; rewrite !G;
    repeat split; intros; try reflexivity; try congruence;
    match goal with H : Some _ = Some _ |- _ => injection H as <-; reflexivity end.
Qed.

Lemma setProfileLinks_links_witness :
  hrefOf (scholarLink (snd (setProfileLinks Sample.scholarOnly Sample.hostPage)))
  = Some (lit "https://scholar.example/citations?user=ao")
  /\ childNodes (scholarLink (snd (setProfileLinks Sample.scholarOnly Sample.hostPage)))
     = [Text (lit "Open profile")]
  /\ hrefOf (orcidLink (snd (setProfileLinks Sample.scholarOnly Sample.hostPage)))
     = Some (lit "#")
  /\ childNodes (orcidLink (snd (setProfileLinks Sample.scholarOnly Sample.hostPage)))
     = [Text (lit "Add your ORCID")].
Proof.
  pose proof (setProfileLinks_links Sample.scholarOnly Sample.hostPage)
    as (_ & _ & Horcid & Hscholar & _).
  destruct (Hscholar _ eq_refl) as [H1 H2]; [discriminate|].
  destruct (Horcid eq_refl) as [H3 H4].
  repeat split; assumption.
Defined.

(** ** Selecting a tab *)

Lemma setActive_eq (key : tabKey) (w : world) :
  setActive key w = renderPublications key (selected key w).
Proof. destruct w as [doc act [y sl ol pl u ts]]. reflexivity. Qed.

Lemma initTabs_eq (w : world) :
  initTabs w
  = setActive JOURNALS
      (with_dom (with_tabs (map (addEventListener SelectTab)))
                (with_active JOURNALS w)).
Proof. destruct w as [doc act [y sl ol pl u ts]]. reflexivity. Qed.

Lemma snd_renderPublications (key : tabKey) (w : world) :
  snd (renderPublications key w)
  = if inherited key then cleared w else rendered key w.
Proof.
  destruct (inherited key) eqn:E.
  - now rewrite renderPublications_throws.
  - now rewrite renderPublications_ok.
Qed.

Lemma strictEq_eq (a b : tabKey) : strictEq a b = true <-> a = b.
Proof.
  destruct a as [x|], b as [y|]; simpl; try (split; congruence).
  rewrite eqb_eq. split; congruence.
Qed.

Lemma contains_toggle (token : jsstring) (force : bool) (cl : list jsstring) :
  contains token (toggle token force cl) = force.
Proof.
  unfold toggle, contains. destruct force.
  - destruct (existsb (Str.eqb token) cl) eqn:E; [exact E|].
    rewrite existsb_app, E. simpl. now rewrite eqb_refl.
  - induction cl as [|t cl IH]; [reflexivity|]. simpl.
    destruct (Str.eqb token t) eqn:E; simpl; [exact IH|].
    now rewrite E.
Qed.

Lemma inherited_groupOf (doc : PublicationDocument) (key : tabKey) :
  inherited key = true -> groupOf doc key = [].
Proof.
  intros H. apply groupOf_unrecognized.
  destruct (recognized key) eqn:R; [|reflexivity].
  apply recognized_not_inherited in R. congruence.
Qed.

(** One run of [setActive key] on a wired page selects [key]. *)
Lemma setActive_Selected (doc : PublicationDocument) (keys : list tabKey)
      (key : tabKey) (w : world) :
  Wired doc keys w -> Selected doc keys key (snd (setActive key w)).
Proof.
  intros (Hdoc & Hkeys & Hls).
  rewrite setActive_eq, snd_renderPublications.
  destruct w as [d act [y sl ol pl u ts]].
  unfold tabKeys in Hkeys. simpl in Hdoc, Hkeys, Hls. subst d keys.
  assert (Hk : map dataset_tab
                 (map (fun t => with_classList
                    (toggle (lit "active") (strictEq (dataset_tab t) key)) t) ts)
               = map dataset_tab ts).
  { rewrite map_map. now apply map_ext. }
  assert (Ha : map isActive
                 (map (fun t => with_classList
                    (toggle (lit "active") (strictEq (dataset_tab t) key)) t) ts)
               = map (fun k => strictEq k key) (map dataset_tab ts)).
  { rewrite !map_map. apply map_ext. intros t. unfold isActive. simpl.
    apply contains_toggle. }
  assert (Hl : Forall (fun t => clickListeners t <> [])
                 (map (fun t => with_classList
                    (toggle (lit "active") (strictEq (dataset_tab t) key)) t) ts)).
  { rewrite Forall_map. exact Hls. }
  destruct (inherited key) eqn:E; unfold Selected, Wired, tabKeys; simpl;
    repeat split; try assumption.
  now rewrite inherited_groupOf.
Qed.

Lemma Selected_Wired doc keys key w : Selected doc keys key w -> Wired doc keys w.
Proof. now intros [H _]. Qed.

(** The listeners of one control, run in order. *)
Lemma listeners_Selected (doc : PublicationDocument) (keys : list tabKey)
      (t : tab) (ls : list listener) : forall w,
  Wired doc keys w -> ls <> [] ->
  Selected doc keys t.(dataset_tab)
    (fold_left (fun w' l => snd (runListener t l w')) ls w).
Proof.
  induction ls as [|[] ls IH]; intros w Hw Hne; [contradiction|].
  simpl. pose proof (setActive_Selected doc keys (dataset_tab t) w Hw) as Hs.
  destruct ls as [|l ls]; [exact Hs|].
  apply IH; [now apply Selected_Wired in Hs | discriminate].
Qed.

Lemma click_Selected (doc : PublicationDocument) (keys : list tabKey)
      (key : tabKey) (i : nat) (w : world) :
  Selected doc keys key w ->
  Selected doc keys (match nth_error keys i with Some k => k | None => key end)
           (click i w).
Proof.
  intros Hs. pose proof (Selected_Wired _ _ _ _ Hs) as Hw.
  destruct Hw as (Hdoc & Hkeys & Hls). unfold click.
  subst keys. unfold tabKeys at 2. rewrite nth_error_map.
  destruct (nth_error (tabs (dom w)) i) as [t|] eqn:E; simpl; [|exact Hs].
  apply listeners_Selected.
  - now repeat split.
  - rewrite Forall_forall in Hls. apply Hls. eapply nth_error_In; eauto.
Qed.

Lemma clicks_Selected (doc : PublicationDocument) (keys : list tabKey)
      (indices : list nat) : forall key w,
  Selected doc keys key w ->
  Selected doc keys (selection keys key indices) (clicks indices w).
Proof.
  induction indices as [|i indices IH]; intros key w Hs; [exact Hs|].
  simpl. apply IH. now apply click_Selected.
Qed.

Lemma loaded_Selected (doc : PublicationDocument) (p : page) :
  Selected doc (tabKeys p) JOURNALS (loaded doc p).
Proof.
  unfold loaded. rewrite initTabs_eq. apply setActive_Selected.
  destruct p as [y sl ol pl u ts]. unfold Wired, tabKeys. simpl.
  repeat split.
  - rewrite map_map. now apply map_ext.
  - rewrite Forall_map. apply Forall_forall. intros t _. simpl.
    now destruct (clickListeners t).
Qed.

Lemma selection_In (keys : list tabKey) (indices : list nat) : forall start,
  In start keys -> In (selection keys start indices) keys.
Proof.
  induction indices as [|i indices IH]; intros start Hin; [exact Hin|].
  simpl. apply IH. destruct (nth_error keys i) eqn:E; [|exact Hin].
  eapply nth_error_In; eauto.
Qed.

(** Among distinct keys, one key is met exactly once. *)
Lemma filter_key (keys : list tabKey) (key : tabKey) :
  NoDup keys -> In key keys ->
  filter (fun k => strictEq k key) keys = [key].
Proof.
  induction keys as [|k keys IH]; intros Hnd Hin; [contradiction|].
  inversion Hnd as [|? ? Hnotin Hnd']; subst. simpl.
  destruct (strictEq k key) eqn:E.
  - apply strictEq_eq in E; subst k. f_equal.
    clear IH Hin Hnd Hnd'. induction keys as [|k' keys IH]; [reflexivity|].
    simpl. destruct (strictEq k' key) eqn:E'.
    + apply strictEq_eq in E'. subst k'. exfalso. apply Hnotin. now left.
    + apply IH. intros H. apply Hnotin. now right.
  - apply IH; [assumption|]. destruct Hin as [->|Hin]; [|assumption].
    assert (strictEq key key = true) by now apply strictEq_eq. congruence.
Qed.

Lemma activeTabs_keys (ts : list tab) (key : tabKey) :
  map isActive ts = map (fun k => strictEq k key) (map dataset_tab ts) ->
  map dataset_tab (filter isActive ts)
  = filter (fun k => strictEq k key) (map dataset_tab ts).
Proof.
  induction ts as [|t ts IH]; [reflexivity|]. simpl.
  intros [= Ht Hts]. rewrite <- Ht.
  destruct (isActive t); simpl; now rewrite IH.
Qed.

(** C6. For every document that lacks a recognized group key, selecting
    that group ([setActive], which the tab's listener runs, and the render
    it calls) ends normally with no item in the list: the missing group
    counts as the empty sequence. *)
Theorem absent_group_renders_nothing
        (doc : PublicationDocument) (act : tabKey) (p : page) (key : tabKey) :
  recognized key = true ->
  groupField doc key = None ->
  fst (renderPublications key (mkWorld doc act p)) = Normal tt
  /\ childNodes (pubList (dom (snd (renderPublications key (mkWorld doc act p)))))
     = []
  /\ fst (setActive key (mkWorld doc act p)) = Normal tt
  /\ childNodes (pubList (dom (snd (setActive key (mkWorld doc act p))))) = []
  /\ listItems (snd (setActive key (mkWorld doc act p))) = [].
Proof.
  intros Hkey Hnone.
  pose proof (recognized_not_inherited _ Hkey) as Hin.
  rewrite setActive_eq, !renderPublications_ok by assumption.
  destruct p as [y sl ol pl u ts].
  unfold listItems, rendered, selected. simpl.
  rewrite groupOf_field, Hnone. repeat split.
Qed.

Lemma absent_group_renders_nothing_witness :
  groupField Sample.document BOOK_CHAPTERS = None
  /\ fst (setActive BOOK_CHAPTERS Sample.startWorld) = Normal tt
  /\ listItems (snd (setActive BOOK_CHAPTERS Sample.startWorld)) = [].
Proof.
  split; [reflexivity|].
  pose proof (@absent_group_renders_nothing
                Sample.document None Sample.hostPage BOOK_CHAPTERS
                eq_refl eq_refl) as H.
  split; [exact (proj1 (proj2 (proj2 H)))
         | exact (proj2 (proj2 (proj2 (proj2 H))))].
Defined.

Lemma setProfileLinks_normal (config : SiteConfig) (p : page) :
  fst (setProfileLinks config p) = Normal tt.
Proof.
  destruct config as [[[|c1 s1]|] [[|c2 s2]|]]; reflexivity.
Qed.

Lemma innerHTMLNodes_NOTICE : innerHTMLNodes NOTICE = [noticeItem].
Proof. vm_compute. reflexivity. Qed.

Lemma main_caught (config : SiteConfig) (env : environment) (p : page)
      (e : exn) :
  loadPublications env = Throw e ->
  main config env p
  = (Normal tt,
     with_pubList (set_innerHTML NOTICE)
       (snd (setProfileLinks config
               (with_year (set_textContent (of_Z (fullYear env))) p)))).
Proof.
  intros Hload.
  unfold main, bind, tryCatch, await, modify at 1.
  pose proof (setProfileLinks_normal config
                (with_year (set_textContent (of_Z (fullYear env))) p)) as Hn.
  destruct (setProfileLinks config _) as [r p'] eqn:Es. simpl in Hn. subst r.
  rewrite Hload. reflexivity.
Qed.

(** C7. When the load of the document fails, by the transport, by a
    response that is not ok or by a body that is not JSON, [main] ends
    normally (nothing is thrown out of it) and the publications list holds
    exactly one node, the informational list item. *)
Theorem main_failed_load (config : SiteConfig) (env : environment) (p : page) :
  failedLoad (env.(fetch) (lit "data/publications.json?v=" ++ of_Z env.(now)))
  = true ->
  fst (main config env p) = Normal tt
  /\ childNodes (pubList (snd (main config env p))) = [noticeItem]
  /\ List.length (filter isListItem
                    (childNodes (pubList (snd (main config env p))))) = 1%nat.
Proof.
  intros Hfail.
  assert (Hload : exists e, loadPublications env = Throw e).
  { unfold loadPublications.
    destruct (fetch env _) as [|[|] [|doc]]; simpl in *;
      try discriminate; eexists; reflexivity. }
  destruct Hload as [e Hload].
  rewrite (@main_caught config env p e Hload).
  unfold with_pubList, set_innerHTML. cbn [fst snd pubList childNodes].
  rewrite innerHTMLNodes_NOTICE. split; [|split]; reflexivity.
Qed.

Lemma main_failed_load_witness :
  fst (main siteConfig Sample.notFound Sample.hostPage) = Normal tt
  /\ childNodes (pubList (snd (main siteConfig Sample.notFound Sample.hostPage)))
     = [noticeItem].
Proof.
  pose proof (@main_failed_load siteConfig Sample.notFound Sample.hostPage
                                eq_refl) as H.
  split; [exact (proj1 H) | exact (proj1 (proj2 H))].
Defined.

(** C8. On a page whose tab controls have distinct keys, [journals] among
    them, after initTabs and after any further clicks on tab controls:
    the selected key is that of the control clicked last (the default
    [journals] before any click); exactly one control is marked active,
    the one of the selected key; and the list holds the items of the group
    of the selected key, in order. *)
Theorem tabs_exactly_one_active
        (doc : PublicationDocument) (p : page) (indices : list nat) :
  NoDup (tabKeys p) ->
  In JOURNALS (tabKeys p) ->
  active (clicks indices (loaded doc p))
  = selection (tabKeys p) JOURNALS indices
  /\ List.length (activeTabs (clicks indices (loaded doc p))) = 1%nat
  /\ map dataset_tab (activeTabs (clicks indices (loaded doc p)))
     = [selection (tabKeys p) JOURNALS indices]
  /\ childNodes (pubList (dom (clicks indices (loaded doc p))))
     = map itemTree (groupOf doc (selection (tabKeys p) JOURNALS indices))
  /\ listItems (clicks indices (loaded doc p))
     = map itemTree (groupOf doc (selection (tabKeys p) JOURNALS indices)).
Proof.
  intros Hnd Hin.
  pose proof (clicks_Selected doc (tabKeys p) indices JOURNALS (loaded doc p)
                (loaded_Selected doc p)) as Hs.
  pose proof (selection_In (tabKeys p) indices JOURNALS Hin) as Hsel.
  set (w := clicks indices (loaded doc p)) in *.
  set (key := selection (tabKeys p) JOURNALS indices) in *.
  destruct Hs as ((Hdoc & Hkeys & Hls) & Hact & Hmarks & Hlist).
  assert (Hone : map dataset_tab (activeTabs w) = [key]).
  { unfold activeTabs. unfold tabKeys in Hkeys at 1.
    rewrite (activeTabs_keys _ key); rewrite Hkeys.
    - now apply filter_key.
    - exact Hmarks. }
  assert (Hitems : itemNodes (groupOf doc key) = map itemTree (groupOf doc key)).
  { unfold itemNodes. apply map_ext. intros it. apply pubItem_tree. }
  repeat split.
  - exact Hact.
  - rewrite <- (length_map dataset_tab), Hone. reflexivity.
  - exact Hone.
  - now rewrite Hlist.
  - unfold listItems. rewrite Hlist, filter_isListItem_itemNodes. exact Hitems.
Qed.

Lemma NoDup_sample_keys : NoDup (tabKeys Sample.hostPage).
Proof.
  unfold tabKeys. simpl.
  repeat constructor; simpl; intuition discriminate.
Qed.

Lemma tabs_exactly_one_active_witness :
  map dataset_tab
      (activeTabs (clicks [1; 2; 0]%nat
                          (loaded Sample.document Sample.hostPage)))
  = [JOURNALS]
  /\ map dataset_tab
         (activeTabs (clicks [1]%nat (loaded Sample.document Sample.hostPage)))
     = [CONFERENCES]
  /\ listItems (clicks [1]%nat (loaded Sample.document Sample.hostPage))
     = [itemTree Sample.c1].
Proof.
  split; [|split].
  - exact (proj1 (proj2 (proj2
      (@tabs_exactly_one_active Sample.document Sample.hostPage [1; 2; 0]%nat
         NoDup_sample_keys (or_introl eq_refl))))).
  - exact (proj1 (proj2 (proj2
      (@tabs_exactly_one_active Sample.document Sample.hostPage [1]%nat
         NoDup_sample_keys (or_introl eq_refl))))).
  - exact (proj2 (proj2 (proj2 (proj2
      (@tabs_exactly_one_active Sample.document Sample.hostPage [1]%nat
         NoDup_sample_keys (or_introl eq_refl)))))).
Defined.

Lemma pubData_renderPublications (key : tabKey) (w : world) :
  pubData (snd (renderPublications key w)) = pubData w.
Proof.
  rewrite snd_renderPublications. now destruct (inherited key).
Qed.

Lemma pubData_setActive (key : tabKey) (w : world) :
  pubData (snd (setActive key w)) = pubData w.
Proof. rewrite setActive_eq, pubData_renderPublications. reflexivity. Qed.

Lemma pubData_click (i : nat) (w : world) : pubData (click i w) = pubData w.
Proof.
  unfold click. destruct (nth_error (tabs (dom w)) i) as [t|]; [|reflexivity].
  generalize (clickListeners t) as ls. intros ls. revert w.
  induction ls as [|[] ls IH]; intros w; [reflexivity|].
  simpl. rewrite IH. apply pubData_setActive.
Qed.

(** C9. The document is only read: a render under any key, a selection,
    initTabs and any clicks on tab controls leave the document of the
    state as it was, whether they end normally or by a throw. *)
Theorem document_unchanged (key : tabKey) (indices : list nat) (w : world) :
  pubData (snd (renderPublications key w)) = pubData w
  /\ pubData (snd (setActive key w)) = pubData w
  /\ pubData (snd (initTabs w)) = pubData w
  /\ pubData (clicks indices w) = pubData w.
Proof.
  repeat split.
  - apply pubData_renderPublications.
  - apply pubData_setActive.
  - rewrite initTabs_eq, pubData_setActive. reflexivity.
  - revert w. induction indices as [|i indices IH]; intros w; [reflexivity|].
    simpl. rewrite IH. apply pubData_click.
Qed.

(* ================================================================== *)
(** * Further properties of the code *)

(** ** escapeHtml *)

Lemma escapeHtml_flat_map (s : jsstring) :
  escapeHtml s = flat_map escapeUnit s.
Proof.
  induction s as [|c s IH]; [reflexivity|].
  rewrite escapeHtml_cons, IH. reflexivity.
Qed.

Lemma escapeUnit_plain (c : codeunit) :
  isReserved c = false -> escapeUnit c = [c].
Proof.
  unfold isReserved, isMarkupChar, escapeUnit.
  rewrite !orb_false_iff. intros (-> & ((-> & ->) & ->) & ->). reflexivity.
Qed.

(** X1. The five [replaceAll] passes of escapeHtml amount to one pass over
    the string that rewrites each code unit by itself: a reserved character
    becomes its reference, any other code unit stays.  Nothing written by
    an earlier pass is rewritten by a later one. *)
Theorem escapeHtml_one_pass (str : jsstring) :
  escapeHtml str = flat_map escapeUnit str
  /\ forall c, isReserved c = false -> escapeUnit c = [c].
Proof.
  split; [apply escapeHtml_flat_map | apply escapeUnit_plain].
Qed.

(** X2. Escaping a concatenation is concatenating the escapes, and the
    empty string escapes to itself: pieces may be escaped one by one. *)
Theorem escapeHtml_concat (a b : jsstring) :
  escapeHtml (a ++ b) = escapeHtml a ++ escapeHtml b
  /\ escapeHtml [] = [].
Proof. split; [apply escapeHtml_app | reflexivity]. Qed.

Lemma escapeUnit_head (c : codeunit) :
  exists t, escapeUnit c = (if isReserved c then AMP else c) :: t.
Proof.
  unfold escapeUnit, isReserved, isMarkupChar.
  reserved c; neqb; simpl; eexists; reflexivity.
Qed.

(** X3. escapeHtml loses nothing: two strings with the same escape are the
    same string. *)
Theorem escapeHtml_injective (a b : jsstring) :
  escapeHtml a = escapeHtml b -> a = b.
Proof.
  revert b. induction a as [|c a IH]; intros [|d b].
  - reflexivity.
  - rewrite escapeHtml_cons. destruct (escapeUnit_head d) as [t ->].
    discriminate.
  - rewrite escapeHtml_cons. destruct (escapeUnit_head c) as [t ->].
    discriminate.
  - rewrite !escapeHtml_cons. intros H.
    assert (Hcd : c = d /\ escapeHtml a = escapeHtml b).
    { unfold escapeUnit in H.
      reserved c; reserved d; simpl in H; neqb_in H;
        try (injection H as ?; subst; try congruence; split; congruence);
        try (injection H as ? ?; congruence);
        exfalso; injection H as Hh _; unfold AMP, LT, GT, QUOT, APOS in *;
        congruence. }
    destruct Hcd as [-> Hab]. f_equal. now apply IH.
Qed.

Lemma escapeHtml_injective_witness : lit "a<b & c" = lit "a<b & c".
Proof.
  exact (escapeHtml_injective (lit "a<b & c") (lit "a<b & c") eq_refl).
Defined.

Lemma occurrences_cons_neq (c k : codeunit) (s : jsstring) :
  c <> k -> occurrences k (c :: s) = occurrences k s.
Proof. intros H. unfold occurrences. now apply count_occ_cons_neq. Qed.

Lemma occurrences_cons_eq (k : codeunit) (s : jsstring) :
  occurrences k (k :: s) = S (occurrences k s).
Proof. unfold occurrences. now apply count_occ_cons_eq. Qed.

Lemma escapeHtml_length_eq (str : jsstring) :
  List.length (escapeHtml str)
  = (List.length str
     + 4 * occurrences AMP str + 3 * occurrences LT str
     + 3 * occurrences GT str + 5 * occurrences QUOT str
     + 4 * occurrences APOS str)%nat.
Proof.
  induction str as [|c s IH]; [reflexivity|].
  rewrite escapeHtml_cons, length_app, IH. unfold escapeUnit.
  reserved c;
    try (rewrite occurrences_cons_eq, !occurrences_cons_neq by discriminate;
         simpl List.length; lia).
  neqb. rewrite !occurrences_cons_neq by assumption.
  simpl List.length. lia.
Qed.

(** X4. The length of an escape: each ampersand adds four code units, each
    less-than and greater-than sign three, each double quote five and each
    apostrophe four; so an escape is never shorter than its input. *)
Theorem escapeHtml_length (str : jsstring) :
  List.length (escapeHtml str)
  = (List.length str
     + 4 * occurrences AMP str + 3 * occurrences LT str
     + 3 * occurrences GT str + 5 * occurrences QUOT str
     + 4 * occurrences APOS str)%nat
  /\ (List.length str <= List.length (escapeHtml str))%nat.
Proof.
  split; [apply escapeHtml_length_eq | rewrite escapeHtml_length_eq; lia].
Qed.

Lemma escapeHtml_plain (s : jsstring) :
  hasReserved s = false -> escapeHtml s = s.
Proof.
  unfold hasReserved. induction s as [|c s IH]; [reflexivity|].
  simpl. rewrite orb_false_iff. intros [Hc Hs].
  rewrite escapeHtml_cons, (IH Hs).
  now rewrite (escapeUnit_plain c Hc).
Qed.

Lemma hasReserved_ampersand (s : jsstring) :
  hasReserved s = true -> (1 <= occurrences AMP (escapeHtml s))%nat.
Proof.
  unfold hasReserved. induction s as [|c s IH]; [discriminate|].
  simpl. rewrite escapeHtml_cons. intros H.
  assert (A : forall a b, occurrences AMP (a ++ b)
                          = (occurrences AMP a + occurrences AMP b)%nat).
  { intros a b. unfold occurrences. apply count_occ_app. }
  rewrite A. destruct (isReserved c) eqn:Hc.
  - assert (1 <= occurrences AMP (escapeUnit c))%nat; [|lia].
    unfold escapeUnit, isReserved, isMarkupChar in *.
    reserved c; try (vm_compute; lia).
    all: neqb_in Hc; discriminate Hc.
  - simpl in H. specialize (IH H). lia.
Qed.

(** X5. escapeHtml leaves a string as it is exactly when the string holds
    none of the five reserved characters, and a second pass changes the
    result of the first exactly when the first changed anything: escaping
    twice is escaping once only for strings with nothing to escape. *)
Theorem escapeHtml_fixed_points (str : jsstring) :
  (escapeHtml str = str <-> hasReserved str = false)
  /\ (escapeHtml (escapeHtml str) = escapeHtml str <-> hasReserved str = false).
Proof.
  assert (G : forall t, (1 <= occurrences AMP t)%nat -> escapeHtml t <> t).
  { intros t Ht E. pose proof (escapeHtml_length_eq t) as L.
    rewrite E in L. lia. }
  split; split.
  - intros E. destruct (hasReserved str) eqn:H; [|reflexivity].
    exfalso. pose proof (hasReserved_ampersand str H) as A.
    rewrite E in A. exact (G str A E).
  - apply escapeHtml_plain.
  - intros E. destruct (hasReserved str) eqn:H; [|reflexivity].
    exfalso. exact (G _ (hasReserved_ampersand str H) E).
  - intros H. now rewrite !(escapeHtml_plain str H).
Qed.

(** ** renderPublications *)

Lemma pubUpdated_renderPublications (key : tabKey) (w : world) :
  inherited key = false ->
  childNodes (pubUpdated (dom (snd (renderPublications key w))))
  = textNodes (updatedText (pubData w)).
Proof.
  intros H. rewrite renderPublications_ok by assumption.
  destruct w as [doc act [y sl ol pl u ts]]. reflexivity.
Qed.

(** X6. renderPublications throws, a TypeError, exactly under the keys
    that are member names of Object.prototype.  Under every other key,
    [undefined] and unknown strings included, it ends normally, the list
    holds the items of the group of the key (none for an unknown key) and
    the freshness line is rewritten from the document.  When it throws,
    the list is left empty and the freshness line keeps what it showed. *)
Theorem renderPublications_outcome (key : tabKey) (w : world) :
  fst (renderPublications key w)
  = (if inherited key then Throw TypeError else Normal tt)
  /\ childNodes (pubList (dom (snd (renderPublications key w))))
     = map itemTree (groupOf (pubData w) key)
  /\ childNodes (pubUpdated (dom (snd (renderPublications key w))))
     = (if inherited key then childNodes (pubUpdated (dom w))
        else textNodes (updatedText (pubData w))).
Proof.
  destruct (inherited key) eqn:E.
  - rewrite renderPublications_throws by assumption.
    rewrite inherited_groupOf by assumption.
    destruct w as [doc act [y sl ol pl u ts]]. repeat split.
  - rewrite renderPublications_ok by assumption.
    destruct w as [doc act [y sl ol pl u ts]]. simpl.
    repeat split. unfold itemNodes. apply map_ext. intros it.
    apply pubItem_tree.
Qed.

Lemma links_renderPublications (key : tabKey) (w : world) :
  year (dom (snd (renderPublications key w))) = year (dom w)
  /\ scholarLink (dom (snd (renderPublications key w))) = scholarLink (dom w)
  /\ orcidLink (dom (snd (renderPublications key w))) = orcidLink (dom w).
Proof.
  rewrite snd_renderPublications.
  destruct w as [doc act [y sl ol pl u ts]].
  destruct (inherited key); repeat split.
Qed.

(** X7. renderPublications writes the children of the list and of the
    freshness line and nothing else: the year, the two profile links, the
    tab controls, the variable [active], and the names and attributes of
    the two elements it fills are as before, whether it throws or not. *)
Theorem renderPublications_frame (key : tabKey) (w : world) :
  active (snd (renderPublications key w)) = active w
  /\ tabs (dom (snd (renderPublications key w))) = tabs (dom w)
  /\ year (dom (snd (renderPublications key w))) = year (dom w)
  /\ scholarLink (dom (snd (renderPublications key w))) = scholarLink (dom w)
  /\ orcidLink (dom (snd (renderPublications key w))) = orcidLink (dom w)
  /\ localName (pubList (dom (snd (renderPublications key w))))
     = localName (pubList (dom w))
  /\ attributes (pubList (dom (snd (renderPublications key w))))
     = attributes (pubList (dom w))
  /\ localName (pubUpdated (dom (snd (renderPublications key w))))
     = localName (pubUpdated (dom w))
  /\ attributes (pubUpdated (dom (snd (renderPublications key w))))
     = attributes (pubUpdated (dom w)).
Proof.
  rewrite snd_renderPublications.
  destruct w as [doc act [y sl ol pl u ts]].
  destruct (inherited key); repeat split.
Qed.

(** X8. A render replaces what an earlier render left: under a key that
    does not throw, rendering after any other render gives the result of
    rendering alone.  Items never pile up across renders. *)
Theorem renderPublications_replaces (k1 k2 : tabKey) (w : world) :
  inherited k2 = false ->
  renderPublications k2 (snd (renderPublications k1 w))
  = renderPublications k2 w.
Proof.
  intros H2. rewrite snd_renderPublications.
  rewrite !renderPublications_ok by assumption. f_equal.
  destruct w as [doc act [y sl ol pl u ts]].
  destruct (inherited k1); reflexivity.
Qed.

Lemma renderPublications_replaces_witness :
  renderPublications JOURNALS
    (snd (renderPublications CONFERENCES Sample.startWorld))
  = renderPublications JOURNALS Sample.startWorld.
Proof.
  exact (renderPublications_replaces CONFERENCES JOURNALS Sample.startWorld
           eq_refl).
Defined.

(** X15. A render reads of the document only the group of its key and the
    timestamp: two documents that agree on these give the same page, so
    the records of the other groups never show. *)
Theorem renderPublications_reads_one_group
        (doc1 doc2 : PublicationDocument) (act : tabKey) (p : page)
        (key : tabKey) :
  groupOf doc1 key = groupOf doc2 key ->
  generated_utc doc1 = generated_utc doc2 ->
  fst (renderPublications key (mkWorld doc1 act p))
  = fst (renderPublications key (mkWorld doc2 act p))
  /\ dom (snd (renderPublications key (mkWorld doc1 act p)))
     = dom (snd (renderPublications key (mkWorld doc2 act p))).
Proof.
  intros Hg Hu. destruct (inherited key) eqn:E.
  - rewrite !renderPublications_throws by assumption. split; reflexivity.
  - rewrite !renderPublications_ok by assumption.
    unfold rendered, updatedText. cbn [fst snd dom with_dom pubData].
    rewrite Hg, Hu. split; reflexivity.
Qed.

Lemma renderPublications_reads_one_group_witness :
  dom (snd (renderPublications JOURNALS Sample.startWorld))
  = dom (snd (renderPublications JOURNALS
                (mkWorld (mkDocument (journals Sample.document) None
                                     (Some [Sample.c1])
                                     (generated_utc Sample.document))
                         None Sample.hostPage))).
Proof.
  exact (proj2 (renderPublications_reads_one_group
                  Sample.document
                  (mkDocument (journals Sample.document) None
                              (Some [Sample.c1])
                              (generated_utc Sample.document))
                  None Sample.hostPage JOURNALS eq_refl eq_refl)).
Defined.

Lemma replace_first (c : codeunit) (rep a b : jsstring) :
  ~ In c a -> replace c rep (a ++ c :: b) = a ++ rep ++ b.
Proof.
  induction a as [|x a IH]; intros Hn; simpl.
  - now rewrite N.eqb_refl.
  - destruct (N.eqb_spec x c) as [->|Hx].
    + exfalso. apply Hn. now left.
    + f_equal. apply IH. intros Hin. apply Hn. now right.
Qed.

Lemma replace_absent (c : codeunit) (rep s : jsstring) :
  ~ In c s -> replace c rep s = s.
Proof.
  induction s as [|x s IH]; intros Hn; [reflexivity|]. simpl.
  destruct (N.eqb_spec x c) as [->|Hx].
  - exfalso. apply Hn. now left.
  - f_equal. apply IH. intros Hin. apply Hn. now right.
Qed.

Lemma updatedText_nonempty (doc : PublicationDocument) (g : jsstring) :
  generated_utc doc = Some g -> g <> [] ->
  updatedText doc
  = lit "Last updated "
    ++ replace CAPITAL_Z (lit " UTC") (replace CAPITAL_T (lit " ") g).
Proof.
  intros Hg Hne. unfold updatedText. rewrite Hg.
  destruct g as [|c g]; [contradiction|reflexivity].
Qed.

(** X9. The freshness line.  For a timestamp made of a date, a capital T,
    a time and a capital Z (no T or Z before them), a render that does not
    throw shows "Last updated", the date, a space, the time and " UTC";
    whatever follows the Z is kept.  A timestamp with neither letter is
    shown as it is.  Without a timestamp, or with an empty one, the line
    is emptied. *)
Theorem renderPublications_freshness (key : tabKey) (w : world) :
  inherited key = false ->
  (forall d t r,
      generated_utc (pubData w) = Some (d ++ CAPITAL_T :: t ++ CAPITAL_Z :: r) ->
      ~ In CAPITAL_T d -> ~ In CAPITAL_Z d -> ~ In CAPITAL_Z t ->
      childNodes (pubUpdated (dom (snd (renderPublications key w))))
      = [Text (lit "Last updated " ++ d ++ lit " " ++ t ++ lit " UTC" ++ r)])
  /\ (forall g,
        generated_utc (pubData w) = Some g -> g <> [] ->
        ~ In CAPITAL_T g -> ~ In CAPITAL_Z g ->
        childNodes (pubUpdated (dom (snd (renderPublications key w))))
        = [Text (lit "Last updated " ++ g)])
  /\ (truthyString (generated_utc (pubData w)) = false ->
      childNodes (pubUpdated (dom (snd (renderPublications key w)))) = []).
Proof.
  intros Hk.
  rewrite (pubUpdated_renderPublications key w Hk). repeat split.
  - intros d t r Hg HTd HZd HZt.
    rewrite (updatedText_nonempty _ _ Hg) by (now destruct d).
    rewrite replace_first by assumption.
    replace (d ++ lit " " ++ t ++ CAPITAL_Z :: r)
      with ((d ++ lit " " ++ t) ++ CAPITAL_Z :: r)
      by (now rewrite <- !app_assoc).
    rewrite replace_first.
    + rewrite <- !app_assoc. reflexivity.
    + rewrite !in_app_iff. intros [H|[H|H]]; [now apply HZd| |now apply HZt].
      simpl in H. destruct H as [H|[]]. discriminate H.
  - intros g Hg Hne HT HZ.
    rewrite (updatedText_nonempty _ _ Hg Hne).
    rewrite (replace_absent _ _ _ HT), (replace_absent _ _ _ HZ).
    reflexivity.
  - unfold updatedText. now destruct (generated_utc (pubData w)) as [[|c g]|].
Qed.

Lemma renderPublications_freshness_witness :
  childNodes (pubUpdated (dom (snd (renderPublications JOURNALS Sample.startWorld))))
  = [Text (lit "Last updated 2024-05-06 07:08:09 UTC")].
Proof.
  refine (proj1 (renderPublications_freshness JOURNALS Sample.startWorld eq_refl)
                (lit "2024-05-06") (lit "07:08:09") [] eq_refl _ _ _);
    intros H; simpl in H; intuition discriminate.
Defined.

(** ** Tabs *)

Lemma toggle_toggle (token : jsstring) (force : bool) (cl : list jsstring) :
  toggle token force (toggle token force cl) = toggle token force cl.
Proof.
  destruct force.
  - unfold toggle at 1. now rewrite contains_toggle.
  - unfold toggle. induction cl as [|t cl IH]; [reflexivity|]. simpl.
    destruct (Str.eqb token t) eqn:E; simpl; [exact IH|].
    rewrite E. simpl. now rewrite IH.
Qed.

Lemma filter_idempotent {A : Type} (f : A -> bool) (l : list A) :
  filter f (filter f l) = filter f l.
Proof.
  induction l as [|x l IH]; [reflexivity|]. simpl.
  destruct (f x) eqn:E; simpl; [rewrite E; now rewrite IH | exact IH].
Qed.

Lemma otherTokens_toggle (force : bool) (cl : list jsstring) :
  otherTokens (toggle (lit "active") force cl) = otherTokens cl.
Proof.
  unfold otherTokens, toggle. destruct force.
  - destruct (contains (lit "active") cl); [reflexivity|].
    rewrite filter_app. cbn [filter]. rewrite eqb_refl. apply app_nil_r.
  - apply filter_idempotent.
Qed.

Lemma tabs_setActive (key : tabKey) (w : world) :
  tabs (dom (snd (setActive key w)))
  = map (fun t => with_classList
                    (toggle (lit "active") (strictEq (dataset_tab t) key)) t)
        (tabs (dom w)).
Proof.
  rewrite setActive_eq, snd_renderPublications.
  destruct w as [doc act [y sl ol pl u ts]].
  destruct (inherited key); reflexivity.
Qed.

Lemma fixedPart_setActive (key : tabKey) (w : world) :
  map fixedPart (tabs (dom (snd (setActive key w))))
  = map fixedPart (tabs (dom w)).
Proof.
  rewrite tabs_setActive, map_map. apply map_ext. intros t.
  unfold fixedPart. simpl. now rewrite otherTokens_toggle.
Qed.

Lemma selected_selected (key : tabKey) (w : world) :
  selected key (selected key w) = selected key w.
Proof.
  destruct w as [doc act [y sl ol pl u ts]].
  unfold selected, with_dom, with_tabs, with_active.
  cbn [pubData active dom tabs pubList pubUpdated year scholarLink orcidLink].
  do 2 f_equal. rewrite map_map. apply map_ext. intros [k cl ls].
  unfold with_classList. cbn [dataset_tab classList clickListeners].
  now rewrite toggle_toggle.
Qed.

Lemma selected_rendered (k k' : tabKey) (w : world) :
  selected k (rendered k' w) = rendered k' (selected k w).
Proof. destruct w as [doc act [y sl ol pl u ts]]. reflexivity. Qed.

Lemma selected_cleared (k : tabKey) (w : world) :
  selected k (cleared w) = cleared (selected k w).
Proof. destruct w as [doc act [y sl ol pl u ts]]. reflexivity. Qed.

Lemma rendered_rendered (k : tabKey) (w : world) :
  rendered k (rendered k w) = rendered k w.
Proof. destruct w as [doc act [y sl ol pl u ts]]. reflexivity. Qed.

Lemma cleared_cleared (w : world) : cleared (cleared w) = cleared w.
Proof. destruct w as [doc act [y sl ol pl u ts]]. reflexivity. Qed.

(** Selecting the same key again changes nothing. *)
Lemma setActive_idempotent (key : tabKey) (w : world) :
  snd (setActive key (snd (setActive key w))) = snd (setActive key w).
Proof.
  rewrite !setActive_eq, !snd_renderPublications.
  destruct (inherited key).
  - now rewrite selected_cleared, selected_selected, cleared_cleared.
  - now rewrite selected_rendered, selected_selected, rendered_rendered.
Qed.

(** The listeners of a control, run in order, amount to one selection of
    its key. *)
Lemma listeners_once (t : tab) (ls : list listener) : forall w,
  ls <> [] ->
  fold_left (fun w' l => snd (runListener t l w')) ls w
  = snd (setActive (dataset_tab t) w).
Proof.
  induction ls as [|[] ls IH]; intros w Hne; [contradiction|].
  simpl. destruct ls as [|l ls]; [reflexivity|].
  rewrite IH by discriminate. apply setActive_idempotent.
Qed.

Lemma click_eq (i : nat) (w : world) :
  click i w
  = match nth_error (tabs (dom w)) i with
    | Some t => match clickListeners t with
                | [] => w
                | _ :: _ => snd (setActive (dataset_tab t) w)
                end
    | None => w
    end.
Proof.
  unfold click. destruct (nth_error (tabs (dom w)) i) as [t|]; [|reflexivity].
  destruct (clickListeners t) as [|l ls] eqn:E; [reflexivity|].
  apply listeners_once. discriminate.
Qed.

Lemma fixedPart_click (i : nat) (w : world) :
  map fixedPart (tabs (dom (click i w))) = map fixedPart (tabs (dom w)).
Proof.
  rewrite click_eq. destruct (nth_error (tabs (dom w)) i) as [t|]; [|reflexivity].
  destruct (clickListeners t); [reflexivity|]. apply fixedPart_setActive.
Qed.

(** X10. A second click on the control just clicked changes nothing:
    the class lists, the list, the freshness line and [active] are those
    the first click left. *)
Theorem click_idempotent (i : nat) (w : world) :
  click i (click i w) = click i w.
Proof.
  rewrite (click_eq i w).
  destruct (nth_error (tabs (dom w)) i) as [t|] eqn:Et.
  - destruct (clickListeners t) as [|l ls] eqn:El.
    + rewrite click_eq, Et, El. reflexivity.
    + rewrite click_eq.
      pose proof (fixedPart_setActive (dataset_tab t) w) as Hf.
      assert (Hn : nth_error (map fixedPart (tabs (dom w))) i
                   = Some (fixedPart t)).
      { rewrite nth_error_map, Et. reflexivity. }
      rewrite <- Hf, nth_error_map in Hn.
      destruct (nth_error (tabs (dom (snd (setActive (dataset_tab t) w)))) i)
        as [t'|]; [|discriminate].
      injection Hn as Hk _ Hl. rewrite Hl, El, Hk.
      apply setActive_idempotent.
  - rewrite click_eq, Et. reflexivity.
Qed.

Lemma fixedPart_clicks (indices : list nat) : forall w,
  map fixedPart (tabs (dom (clicks indices w))) = map fixedPart (tabs (dom w)).
Proof.
  induction indices as [|i indices IH]; intros w; [reflexivity|].
  simpl. rewrite IH. apply fixedPart_click.
Qed.

Lemma fixedPart_loaded (doc : PublicationDocument) (p : page) :
  map fixedPart (tabs (dom (loaded doc p)))
  = map (fun t => (dataset_tab t, otherTokens (classList t),
                   clickListeners t ++ [SelectTab])) (tabs p).
Proof.
  unfold loaded. rewrite initTabs_eq, fixedPart_setActive.
  destruct p as [y sl ol pl u ts]. simpl. rewrite map_map. reflexivity.
Qed.

(** X11. initTabs gives every tab control exactly one more click listener,
    and neither it nor any later clicks touch the rest of a control: the
    number and order of the controls, their keys and their class tokens
    other than [active] stay as the host page has them. *)
Theorem tabs_keep_their_shape
        (doc : PublicationDocument) (p : page) (indices : list nat) :
  map fixedPart (tabs (dom (clicks indices (loaded doc p))))
  = map (fun t => (dataset_tab t, otherTokens (classList t),
                   clickListeners t ++ [SelectTab])) (tabs p)
  /\ List.length (tabs (dom (clicks indices (loaded doc p))))
     = List.length (tabs p).
Proof.
  assert (E : map fixedPart (tabs (dom (clicks indices (loaded doc p))))
              = map (fun t => (dataset_tab t, otherTokens (classList t),
                               clickListeners t ++ [SelectTab])) (tabs p)).
  { rewrite fixedPart_clicks. apply fixedPart_loaded. }
  split; [exact E|].
  rewrite <- (length_map fixedPart), E. apply length_map.
Qed.

(** ** setProfileLinks *)

Lemma setAttr_setAttr (name value : jsstring) (attrs : list attribute) :
  setAttr name value (setAttr name value attrs) = setAttr name value attrs.
Proof.
  induction attrs as [|[n v] attrs IH]; simpl.
  - now rewrite eqb_refl.
  - destruct (Str.eqb n name) eqn:E; simpl; rewrite E; [reflexivity|].
    now rewrite IH.
Qed.

Lemma getAttr_setAttr_other (name other value : jsstring)
      (attrs : list attribute) :
  other <> name -> getAttr other (setAttr name value attrs) = getAttr other attrs.
Proof.
  intros Hne. induction attrs as [|[n v] attrs IH]; simpl.
  - now rewrite (proj2 (eqb_neq name other)) by congruence.
  - destruct (Str.eqb n name) eqn:E; simpl.
    + apply eqb_eq in E. subst n.
      now rewrite (proj2 (eqb_neq name other)) by congruence.
    + destruct (Str.eqb n other); [reflexivity | exact IH].
Qed.

(** The page setProfileLinks leaves: the two links with a new [href] and
    a new text. *)
Lemma setProfileLinks_shape (config : SiteConfig) :
  exists h1 t1 h2 t2, forall p,
    snd (setProfileLinks config p)
    = mkPage (year p)
             (set_textContent t1 (set_href h1 (scholarLink p)))
             (set_textContent t2 (set_href h2 (orcidLink p)))
             (pubList p) (pubUpdated p) (tabs p).
Proof.
  destruct config as [[[|c1 s1]|] [[|c2 s2]|]];
    do 4 eexists; intros [y sl ol pl u ts]; reflexivity.
Qed.

(** X12. setProfileLinks writes the [href] and the text of the two profile
    links and nothing else: every other element of the page, and the name
    and the other attributes of the two links, stay as they were.  Running
    it again with the same configuration changes nothing more. *)
Theorem setProfileLinks_frame (config : SiteConfig) (p : page) :
  year (snd (setProfileLinks config p)) = year p
  /\ pubList (snd (setProfileLinks config p)) = pubList p
  /\ pubUpdated (snd (setProfileLinks config p)) = pubUpdated p
  /\ tabs (snd (setProfileLinks config p)) = tabs p
  /\ localName (scholarLink (snd (setProfileLinks config p)))
     = localName (scholarLink p)
  /\ localName (orcidLink (snd (setProfileLinks config p)))
     = localName (orcidLink p)
  /\ (forall name, name <> lit "href" ->
        getAttr name (attributes (scholarLink (snd (setProfileLinks config p))))
        = getAttr name (attributes (scholarLink p))
        /\ getAttr name (attributes (orcidLink (snd (setProfileLinks config p))))
           = getAttr name (attributes (orcidLink p)))
  /\ snd (setProfileLinks config (snd (setProfileLinks config p)))
     = snd (setProfileLinks config p).
Proof.
  destruct (setProfileLinks_shape config) as (h1 & t1 & h2 & t2 & H).
  rewrite !H.
  cbn [year scholarLink orcidLink pubList pubUpdated tabs].
  unfold set_textContent, set_href, setAttribute.
  cbn [localName attributes childNodes].
  repeat split.
  - now apply getAttr_setAttr_other.
  - now apply getAttr_setAttr_other.
  - now rewrite !setAttr_setAttr.
Qed.

Lemma setProfileLinks_frame_witness :
  getAttr (lit "class")
    (attributes (scholarLink
       (snd (setProfileLinks siteConfig
          (with_scholarLink (set_className (lit "btn")) Sample.hostPage)))))
  = getAttr (lit "class")
      (attributes (scholarLink
         (with_scholarLink (set_className (lit "btn")) Sample.hostPage))).
Proof.
  apply (proj1 (proj2 (proj2 (proj2 (proj2 (proj2 (proj2
    (setProfileLinks_frame siteConfig
       (with_scholarLink (set_className (lit "btn")) Sample.hostPage))))))))).
  intros H. discriminate H.
Defined.
(** ** loadPublications and main *)

Lemma lit_injective (a b : string) : lit a = lit b -> a = b.
Proof.
  unfold lit. intros H.
  rewrite <- (string_of_list_ascii_of_string a),
          <- (string_of_list_ascii_of_string b).
  f_equal. revert H.
  generalize (list_ascii_of_string a) (list_ascii_of_string b).
  intros la. induction la as [|x la IH]; intros [|y lb]; simpl;
    try discriminate; [reflexivity|].
  intros [= Hxy Hl]. f_equal; [|now apply IH].
  rewrite <- (ascii_N_embedding x), <- (ascii_N_embedding y). now rewrite Hxy.
Qed.

Lemma to_int_normal (z : Z) :
  Z.to_int z <> Decimal.Pos Decimal.Nil /\ Z.to_int z <> Decimal.Neg Decimal.Nil.
Proof.
  assert (P : forall q, Pos.to_uint q <> Decimal.Nil).
  { intros q H. pose proof (DecimalPos.Unsigned.of_to q) as E.
    rewrite H in E. discriminate E. }
  destruct z as [|q|q]; simpl; split; try discriminate;
    intros [= H]; exact (P q H).
Qed.

Lemma of_Z_injective (a b : Z) : of_Z a = of_Z b -> a = b.
Proof.
  unfold of_Z. intros H. apply lit_injective in H.
  apply DecimalZ.to_int_inj.
  destruct (to_int_normal a) as [Ha1 Ha2], (to_int_normal b) as [Hb1 Hb2].
  pose proof (NilZero.isi (Z.to_int a) Ha1 Ha2) as Ea.
  pose proof (NilZero.isi (Z.to_int b) Hb1 Hb2) as Eb.
  rewrite H in Ea. congruence.
Qed.

(** X13. The request of loadPublications.  It reads [fetch] at one URL
    only, the fixed path followed by [?v=] and the time of the load in
    decimal digits, so two loads at the same time that are answered alike
    at that URL end alike; and loads at different times ask for different
    URLs, which is what defeats a cache. *)
Theorem loadPublications_request (env1 env2 : environment) :
  (now env1 = now env2 ->
   fetch env1 (requestUrl env1) = fetch env2 (requestUrl env2) ->
   loadPublications env1 = loadPublications env2)
  /\ (requestUrl env1 = requestUrl env2 -> now env1 = now env2).
Proof.
  split.
  - intros Hn Hf. unfold loadPublications.
    fold (requestUrl env1). fold (requestUrl env2). now rewrite Hf.
  - unfold requestUrl. intros H. apply app_inv_head in H.
    now apply of_Z_injective.
Qed.

Lemma loadPublications_request_witness :
  loadPublications Sample.notFound
  = loadPublications
      (mkEnvironment 1714979289000 1999
         (fun u => if Str.eqb u (requestUrl Sample.notFound)
                   then Response false JsonSyntaxError
                   else Rejected))
  /\ now Sample.notFound = now Sample.served.
Proof.
  split.
  - apply (proj1 (loadPublications_request Sample.notFound
      (mkEnvironment 1714979289000 1999
         (fun u => if Str.eqb u (requestUrl Sample.notFound)
                   then Response false JsonSyntaxError
                   else Rejected)))); vm_compute; reflexivity.
  - apply (proj2 (loadPublications_request Sample.notFound Sample.served)).
    vm_compute. reflexivity.
Defined.

Lemma initTabs_normal (w : world) : fst (initTabs w) = Normal tt.
Proof.
  rewrite initTabs_eq, setActive_eq, renderPublications_ok; reflexivity.
Qed.

Lemma main_loaded (config : SiteConfig) (env : environment) (p : page)
      (doc : PublicationDocument) :
  loadPublications env = Normal doc ->
  main config env p
  = (Normal tt,
     dom (loaded doc
            (snd (setProfileLinks config
                    (with_year (set_textContent (of_Z (fullYear env))) p))))).
Proof.
  intros Hload.
  unfold main, bind, tryCatch, await, modify at 1.
  pose proof (setProfileLinks_normal config
                (with_year (set_textContent (of_Z (fullYear env))) p)) as Hn.
  destruct (setProfileLinks config _) as [r p'] eqn:Es. simpl in Hn. subst r.
  rewrite Hload. unfold withDocument, loaded. simpl.
  pose proof (initTabs_normal (mkWorld doc None p')) as Hi.
  destruct (initTabs (mkWorld doc None p')) as [r w]. simpl in Hi. subst r.
  reflexivity.
Qed.

Lemma loaded_frame (doc : PublicationDocument) (p : page) :
  year (dom (loaded doc p)) = year p
  /\ scholarLink (dom (loaded doc p)) = scholarLink p
  /\ orcidLink (dom (loaded doc p)) = orcidLink p.
Proof.
  unfold loaded. rewrite initTabs_eq, setActive_eq.
  pose proof (links_renderPublications JOURNALS
    (selected JOURNALS
       (with_dom (with_tabs (map (addEventListener SelectTab)))
                 (with_active JOURNALS (mkWorld doc None p)))))
    as (Hy & Hs & Ho).
  rewrite Hy, Hs, Ho. destruct p as [y sl ol pl u ts]. repeat split.
Qed.

(** X14. [main] by the answer to the load, for the two kinds of answer of
    the model: a load that fails, and a load that yields a document of the
    schema of the data file (an answer that is JSON of another shape is
    outside the model and nothing is said of it).  With a document of the
    schema, [main] ends normally, the list holds the items of the journals
    group in order, the controls marked active are those of the key
    [journals], and every control has one more listener.  With a failed
    load, [main] ends normally, the list holds the notice and the tab
    controls are untouched, so that they stay without a listener.  In both
    cases the year shows the current year and the profile links are as
    setProfileLinks sets them. *)
Theorem main_by_load (config : SiteConfig) (env : environment) (p : page) :
  (forall doc,
      fetch env (requestUrl env) = Response true (JsonValue doc) ->
      fst (main config env p) = Normal tt
      /\ childNodes (pubList (snd (main config env p)))
         = map itemTree (groupOf doc JOURNALS)
      /\ map isActive (tabs (snd (main config env p)))
         = map (fun t => strictEq (dataset_tab t) JOURNALS) (tabs p)
      /\ map clickListeners (tabs (snd (main config env p)))
         = map (fun t => clickListeners t ++ [SelectTab]) (tabs p)
      /\ childNodes (year (snd (main config env p)))
         = textNodes (of_Z (fullYear env))
      /\ scholarLink (snd (main config env p))
         = scholarLink (snd (setProfileLinks config p))
      /\ orcidLink (snd (main config env p))
         = orcidLink (snd (setProfileLinks config p)))
  /\ (failedLoad (fetch env (requestUrl env)) = true ->
      fst (main config env p) = Normal tt
      /\ childNodes (pubList (snd (main config env p))) = [noticeItem]
      /\ tabs (snd (main config env p)) = tabs p
      /\ childNodes (year (snd (main config env p)))
         = textNodes (of_Z (fullYear env))
      /\ scholarLink (snd (main config env p))
         = scholarLink (snd (setProfileLinks config p))
      /\ orcidLink (snd (main config env p))
         = orcidLink (snd (setProfileLinks config p))).
Proof.
  set (p1 := with_year (set_textContent (of_Z (fullYear env))) p).
  assert (Hp1 : year (snd (setProfileLinks config p1))
                = set_textContent (of_Z (fullYear env)) (year p)
                /\ scholarLink (snd (setProfileLinks config p1))
                   = scholarLink (snd (setProfileLinks config p))
                /\ orcidLink (snd (setProfileLinks config p1))
                   = orcidLink (snd (setProfileLinks config p))
                /\ tabs (snd (setProfileLinks config p1)) = tabs p).
  { subst p1. destruct config as [[[|c1 s1]|] [[|c2 s2]|]],
      p as [y sl ol pl u ts]; repeat split. }
  destruct Hp1 as (Hy & Hs & Ho & Ht).
  split.
  - intros doc Hfetch.
    assert (Hload : loadPublications env = Normal doc).
    { unfold loadPublications. fold (requestUrl env). now rewrite Hfetch. }
    rewrite (main_loaded config env p doc Hload). fold p1.
    cbn [fst snd].
    destruct (loaded_frame doc (snd (setProfileLinks config p1)))
      as (Hy' & Hs' & Ho').
    rewrite Hy', Hs', Ho', Hy, Hs, Ho.
    pose proof (loaded_Selected doc (snd (setProfileLinks config p1)))
      as (_ & _ & Hmarks & Hlist).
    pose proof (fixedPart_loaded doc (snd (setProfileLinks config p1)))
      as Hshape.
    repeat split.
    + rewrite Hlist. unfold itemNodes. apply map_ext. intros it.
      apply pubItem_tree.
    + rewrite Hmarks. unfold tabKeys. rewrite Ht, map_map. reflexivity.
    + apply (f_equal (map snd)) in Hshape. rewrite !map_map in Hshape.
      simpl in Hshape. rewrite Ht in Hshape. exact Hshape.
  - intros Hfail.
    assert (Hload : exists e, loadPublications env = Throw e).
    { unfold loadPublications. fold (requestUrl env).
      destruct (fetch env (requestUrl env)) as [|[|] [|doc]]; simpl in *;
        try discriminate; eexists; reflexivity. }
    destruct Hload as [e Hload].
    rewrite (main_caught config env p e Hload). fold p1.
    cbn [fst snd]. unfold with_pubList, set_innerHTML.
    cbn [pubList childNodes year scholarLink orcidLink tabs].
    rewrite innerHTMLNodes_NOTICE, Hy, Hs, Ho, Ht. repeat split.
Qed.

Lemma main_by_load_witness :
  childNodes (pubList (snd (main siteConfig Sample.served Sample.hostPage)))
  = [itemTree Sample.j2; itemTree Sample.j1]
  /\ tabs (snd (main siteConfig Sample.notFound Sample.hostPage))
     = tabs Sample.hostPage.
Proof.
  split.
  - refine (proj1 (proj2 (proj1 (main_by_load siteConfig Sample.served
                                    Sample.hostPage) Sample.document _))).
    vm_compute. reflexivity.
  - refine (proj1 (proj2 (proj2 (proj2 (main_by_load siteConfig Sample.notFound
                                    Sample.hostPage) _)))).
    vm_compute. reflexivity.
Defined.
